(** * Hyndman-Khandakar order search: a shallow embedding of
      [hyndman_khandakar.py] and the properties of its search.

    The class [HyndmanKhandakar] is embedded as a record of its instance
    attributes and its methods as computations in a state-and-exception
    monad over that record: Python mutates [self] in place, so the
    attributes written before an exception is raised stay written.

    Numbers.  Python [int] is [Z]; [numpy.int64] (the elements of
    [np.arange]) is [Z] with the wrap-around written out.  A float is an
    exact rational or one of the IEEE special values [inf], [-inf], [nan];
    rounding is not modelled.  A characteristic root is a complex number
    with rational parts; its modulus is a real number.  The statistical
    tests and the ARIMA estimation of statsmodels are collaborators: an
    interface, of which the search only reads p-values, the AIC and the
    characteristic roots. *)

From Stdlib Require Import ZArith QArith Bool List Lia String.
From Stdlib Require Import Reals Qreals.
From Stdlib Require Lra.
From Stdlib Require Import Lqa.
Import ListNotations.
Local Open Scope Z_scope.

(** ** Floats *)

Inductive pyfloat : Type :=
| Fin (q : Q)
| PInf
| NInf
| NaN.

Definition Qlt_bool (x y : Q) : bool := negb (Qle_bool y x).

(** [a < b] on floats: false as soon as one side is [nan]. *)
Definition flt (a b : pyfloat) : bool :=
  match a, b with
  | NaN, _ | _, NaN => false
  | _, NInf => false
  | PInf, _ => false
  | NInf, _ => true
  | Fin _, PInf => true
  | Fin x, Fin y => Qlt_bool x y
  end.

(** [a <= b] on floats. *)
Definition fle (a b : pyfloat) : bool :=
  match a, b with
  | NaN, _ | _, NaN => false
  | NInf, _ => true
  | _, PInf => true
  | _, NInf => false
  | PInf, _ => false
  | Fin x, Fin y => Qle_bool x y
  end.

(** [a > b] and [a >= b] are the mirrored comparisons. *)
Definition fgt (a b : pyfloat) : bool := flt b a.
Definition fge (a b : pyfloat) : bool := fle b a.

(** [a == b] on floats. *)
Definition feq (a b : pyfloat) : bool :=
  match a, b with
  | Fin x, Fin y => Qeq_bool x y
  | PInf, PInf | NInf, NInf => true
  | _, _ => false
  end.

(** [a + b] on floats. *)
Definition fadd (a b : pyfloat) : pyfloat :=
  match a, b with
  | NaN, _ | _, NaN => NaN
  | PInf, NInf | NInf, PInf => NaN
  | PInf, _ | _, PInf => PInf
  | NInf, _ | _, NInf => NInf
  | Fin x, Fin y => Fin (x + y)
  end.

Definition is_nan (a : pyfloat) : bool :=
  match a with NaN => true | _ => false end.

(** ** Integers: Python [int] and [numpy.int64] *)

Inductive pyint : Type :=
| PyInt (z : Z)
| NpInt (z : Z).

Definition ival (a : pyint) : Z :=
  match a with PyInt z | NpInt z => z end.

(** Two's complement wrap-around of a 64-bit signed integer. *)
Definition wrap64 (z : Z) : Z := (z + 2 ^ 63) mod 2 ^ 64 - 2 ^ 63.

(** An arithmetic operation stays a Python [int] when both operands are,
    and is a [numpy.int64] operation otherwise. *)
Definition int_op (f : Z -> Z -> Z) (a b : pyint) : pyint :=
  match a, b with
  | PyInt x, PyInt y => PyInt (f x y)
  | _, _ => NpInt (wrap64 (f (ival a) (ival b)))
  end.

Definition int_add : pyint -> pyint -> pyint := int_op Z.add.
Definition int_sub : pyint -> pyint -> pyint := int_op Z.sub.
Definition int_mul : pyint -> pyint -> pyint := int_op Z.mul.

(** Comparisons of integers look at the value only: [np.int64(1) == 1]. *)
Definition int_eqb (a b : pyint) : bool := ival a =? ival b.
Definition int_ltb (a b : pyint) : bool := ival a <? ival b.
Definition int_leb (a b : pyint) : bool := ival a <=? ival b.
Definition int_gtb (a b : pyint) : bool := ival a >? ival b.

(** ** Exceptions and results *)

(** The exceptions the search meets; [ValueError] stands for the class
    with its subclasses, which is what [except ValueError] catches. *)
Inductive exn : Type :=
| ValueError
| AttributeError
| ZeroDivisionError
| RecursionError
| OtherError (name : string).

Inductive result (A : Type) : Type :=
| Ok (a : A)
| Raise (e : exn).
Arguments Ok {A} a.
Arguments Raise {A} e.

Definition is_ValueError (e : exn) : bool :=
  match e with ValueError => true | _ => false end.

(** True division [a / b].  On two Python ints a zero divisor raises
    [ZeroDivisionError]; as soon as one operand is a [numpy.int64] the
    result is a [numpy.float64] and a zero divisor gives [inf], [-inf] or
    [nan]; numpy issues a [RuntimeWarning] of its own there, which is not
    an exception and is not recorded. *)
Definition int_truediv (a b : pyint) : result pyfloat :=
  match a, b with
  | PyInt x, PyInt y =>
      if y =? 0 then Raise ZeroDivisionError
      else Ok (Fin (inject_Z x / inject_Z y))
  | _, _ =>
      let x := ival a in
      let y := ival b in
      if y =? 0 then
        Ok (if 0 <? x then PInf else if x <? 0 then NInf else NaN)
      else Ok (Fin (inject_Z x / inject_Z y))
  end.

(** ** The data of the search *)

(** The series: its observations, in time order. *)
Definition Series : Type := list Q.

(** [ts.diff().dropna()]: the first differences; the leading [nan] that
    [diff] produces is the entry [dropna] removes. *)
Fixpoint diff_dropna (ts : Series) : Series :=
  match ts with
  | x :: ((y :: _) as rest) => (y - x)%Q :: diff_dropna rest
  | _ => []
  end.

Record complex : Type := mkComplex { re : Q; im : Q }.

(** [np.abs(z) > c].  The modulus is a square root; for a threshold that is
    a number the comparison is decided on the squares. *)
Definition np_abs_gt (z : complex) (c : pyfloat) : bool :=
  match c with
  | Fin x => Qlt_bool x 0 || Qlt_bool (x * x) (re z * re z + im z * im z)
  | NInf => true
  | PInf | NaN => false
  end.

(** What the search reads of a fitted model ([ARIMAResults]). *)
Record ARIMAResults : Type := mkResults {
  aic : pyfloat;
  arroots : list complex;
  maroots : list complex
}.

(** An order [(p, d, q)]; a candidate is an order with its trend,
    ["c"] or ["nc"]. *)
Definition Order : Type := (pyint * pyint * pyint)%type.
Definition Candidate : Type := (Order * string)%type.

Definition order_eqb (o1 o2 : Order) : bool :=
  let '(p1, d1, q1) := o1 in
  let '(p2, d2, q2) := o2 in
  int_eqb p1 p2 && int_eqb d1 d2 && int_eqb q1 q2.

Definition candidate_eqb (c1 c2 : Candidate) : bool :=
  order_eqb (fst c1) (fst c2) && String.eqb (snd c1) (snd c2).

(** [(order, trend) in orders] *)
Definition candidate_in (c : Candidate) (orders : list Candidate) : bool :=
  existsb (candidate_eqb c) orders.

(** The dictionary [self.order]. *)
Record OrderDict : Type := mkOrder {
  key_p : pyint;
  key_d : pyint;
  key_q : pyint;
  key_trend : string
}.

(** The collaborators (statsmodels).  [adfuller] and [kpss] give the
    p-value of the test, [ARIMA_fit ts order trend disp] stands for
    [sm.tsa.ARIMA(ts, order=order).fit(trend=trend, disp=disp, **fit_kargs)];
    each of them may raise. *)
Class Statsmodels : Type := {
  adfuller : Series -> result pyfloat;
  kpss : Series -> result pyfloat;
  ARIMA_fit : Series -> Order -> string -> Z -> result ARIMAResults
}.

(** The instance attributes.  [d] is the attribute [self.d]: it is absent
    ([None]) until something assigns it.  [warnings] is the list of the
    warnings the class issues itself, through its own call of [warn],
    oldest first; what numpy or statsmodels warn of inside their own code
    is not recorded. *)
Record HyndmanKhandakar : Type := mkHK {
  ts : Series;
  alpha : pyfloat;
  conditions : Z * pyfloat;
  full_search : bool;
  verbose : Z;
  model : option ARIMAResults;
  order : OrderDict;
  aicc : pyfloat;
  p_values : list (Z * (pyfloat * pyfloat));
  d : option pyint;
  warnings : list string
}.

Definition set_incumbent (self : HyndmanKhandakar) (m : ARIMAResults)
    (o : Order) (trend : string) (a : pyfloat) : HyndmanKhandakar :=
  let '(p, dd, q) := o in
  mkHK (ts self) (alpha self) (conditions self) (full_search self)
       (verbose self) (Some m) (mkOrder p dd q trend) a (p_values self)
       (d self) (warnings self).

Definition set_p_values (self : HyndmanKhandakar)
    (pv : list (Z * (pyfloat * pyfloat))) : HyndmanKhandakar :=
  mkHK (ts self) (alpha self) (conditions self) (full_search self)
       (verbose self) (model self) (order self) (aicc self) pv
       (d self) (warnings self).

Definition set_d (self : HyndmanKhandakar) (v : pyint) : HyndmanKhandakar :=
  mkHK (ts self) (alpha self) (conditions self) (full_search self)
       (verbose self) (model self) (order self) (aicc self) (p_values self)
       (Some v) (warnings self).

Definition add_warning (self : HyndmanKhandakar) (w : string)
    : HyndmanKhandakar :=
  mkHK (ts self) (alpha self) (conditions self) (full_search self)
       (verbose self) (model self) (order self) (aicc self) (p_values self)
       (d self) (warnings self ++ [w]).

(** [dict[key] = value] on an association list: the entry of the key is
    replaced where it stands, a new key goes to the end. *)
Fixpoint dict_set {V : Type} (key : Z) (v : V) (dict : list (Z * V))
    : list (Z * V) :=
  match dict with
  | [] => [(key, v)]
  | (k', v') :: rest =>
      if k' =? key then (k', v) :: rest else (k', v') :: dict_set key v rest
  end.

(** ** The monad of the methods: state [self], exceptions *)

Definition M (A : Type) : Type :=
  HyndmanKhandakar -> result A * HyndmanKhandakar.

Definition ret {A : Type} (a : A) : M A := fun self => (Ok a, self).

Definition bind {A B : Type} (m : M A) (k : A -> M B) : M B :=
  fun self =>
    match m self with
    | (Ok a, self') => k a self'
    | (Raise e, self') => (Raise e, self')
    end.

Definition raise {A : Type} (e : exn) : M A := fun self => (Raise e, self).

Definition get : M HyndmanKhandakar := fun self => (Ok self, self).

Definition modify (f : HyndmanKhandakar -> HyndmanKhandakar) : M unit :=
  fun self => (Ok tt, f self).

Definition lift {A : Type} (r : result A) : M A := fun self => (r, self).

(** [try: body  except ValueError: handler] *)
Definition try_except_ValueError {A : Type} (body handler : M A) : M A :=
  fun self =>
    match body self with
    | (Raise e, self') =>
        if is_ValueError e then handler self' else (Raise e, self')
    | r => r
    end.

Declare Scope hk_scope.
Delimit Scope hk_scope with hk.
Notation "x <- m ;; k" := (bind m (fun x => k))
  (at level 61, m at next level, right associativity) : hk_scope.
Notation "m ;;; k" := (bind m (fun _ => k))
  (at level 61, right associativity) : hk_scope.

(** [for x in xs: body], with the local variables the body assigns
    threaded as [acc]; an exception leaves the loop. *)
Fixpoint for_in {A S : Type} (xs : list A) (body : A -> S -> M S) (acc : S)
    : M S :=
  match xs with
  | [] => ret acc
  | x :: rest => bind (body x acc) (for_in rest body)
  end.

(** [self.d]: an [AttributeError] while the attribute is absent. *)
Definition getattr_d : M pyint :=
  fun self =>
    match d self with
    | Some v => (Ok v, self)
    | None => (Raise AttributeError, self)
    end.

(** The depth of recursion the interpreter allows before it raises
    [RecursionError]. *)
Definition recursion_limit : nat := 1000.

(** ** The methods of [HyndmanKhandakar] *)

Section Methods.

Context {sm : Statsmodels}.
Local Open Scope hk_scope.

(** The defaults of the constructor: [alpha=0.05],
    [conditions=(5, 1.001)], [full_search=False], [verbose=0]. *)
Definition default_alpha : pyfloat := Fin (5 # 100).
Definition default_conditions : Z * pyfloat := (5, Fin (1001 # 1000)).

(** [__init__] stores its arguments and the state of "no model yet".
    It assigns no attribute [d]. *)
Definition __init__ (ts0 : Series) (alpha0 : pyfloat)
    (conditions0 : Z * pyfloat) (full_search0 : bool) (verbose0 : Z)
    : result HyndmanKhandakar :=
  Ok (mkHK ts0 alpha0 conditions0 full_search0 verbose0
           None (mkOrder (PyInt 0) (PyInt 0) (PyInt 0) "nc") PInf [] None []).

Definition failed_to_stationarize : string :=
  "Failed to stationarize mean by differencing. Continuing with d = 2...".

(** The inner function [_test] of [_get_differencing_degree]; [depth] is
    the recursion depth still available. *)
Fixpoint _test (depth : nat) (ts0 : Series) : M unit :=
  match depth with
  | O => raise RecursionError
  | S depth' =>
      p_adf <- lift (adfuller ts0) ;;
      p_kpss <- lift (kpss ts0) ;;
      self <- get ;;
      if flt p_kpss (alpha self) || fge p_adf (alpha self) then
        d0 <- getattr_d ;;
        if int_eqb d0 (PyInt 2) then
          if negb (verbose self =? 0)
          then modify (fun self => add_warning self failed_to_stationarize)
          else ret tt
        else
          let ts_diff := diff_dropna ts0 in
          d1 <- getattr_d ;;
          modify (fun self =>
                    set_p_values self
                      (dict_set (ival d1) (p_adf, p_kpss) (p_values self))) ;;;
          d2 <- getattr_d ;;
          modify (fun self => set_d self (int_add d2 (PyInt 1))) ;;;
          _test depth' ts_diff
      else ret tt
  end.

(** Both branches run [_test(self.ts)]; they differ in the filter for the
    [InterpolationWarning] of the KPSS test only. *)
Definition _get_differencing_degree : M unit :=
  self <- get ;;
  if verbose self =? 0
  then _test recursion_limit (ts self)
  else _test recursion_limit (ts self).

(** [_correct_aic(order, trend, aic)]; it reads [self] and writes nothing. *)
Definition _correct_aic (self : HyndmanKhandakar) (order0 : Order)
    (trend : string) (aic0 : pyfloat) : result pyfloat :=
  let '(p, _, q) := order0 in
  let k := if String.eqb trend "c" then PyInt 1 else PyInt 0 in
  let n := int_add (int_add (int_add p q) k) (PyInt 1) in
  let len_ts := PyInt (Z.of_nat (List.length (ts self))) in
  match int_truediv (int_mul (int_mul (PyInt 2) n) (int_add n (PyInt 1)))
                    (int_sub (int_sub len_ts n) (PyInt 1)) with
  | Ok x => Ok (fadd aic0 x)
  | Raise e => Raise e
  end.

(** [all(np.abs(roots) > self.conditions[1])] *)
Definition all_abs_gt (roots : list complex) (bound : pyfloat) : bool :=
  forallb (fun z => np_abs_gt z bound) roots.

Definition _fit (order0 : Order) (trend : string) : M unit :=
  self <- get ;;
  model0 <- lift (ARIMA_fit (ts self) order0 trend (verbose self)) ;;
  aicc0 <- lift (_correct_aic self order0 trend (aic model0)) ;;
  if flt aicc0 (aicc self) then
    let invertible := all_abs_gt (arroots model0) (snd (conditions self)) in
    let stationary := all_abs_gt (maroots model0) (snd (conditions self)) in
    if invertible && stationary
    then modify (fun self => set_incumbent self model0 order0 trend aicc0)
    else ret tt
  else ret tt.

(** [np.arange(start, stop)] and [np.arange(stop)] on integers. *)
Definition np_arange (start stop : pyint) : list pyint :=
  map (fun i => NpInt (ival start + Z.of_nat i))
      (seq 0 (Z.to_nat (ival stop - ival start))).

(** The seed models of the stepwise search, by the degree [d]. *)
Definition seed_orders (d0 : pyint) : list Candidate :=
  if int_leb d0 (PyInt 1) then
    [ ((PyInt 0, d0, PyInt 0), "c"%string);
      ((PyInt 0, d0, PyInt 0), "nc"%string);
      ((PyInt 1, d0, PyInt 0), "c"%string);
      ((PyInt 0, d0, PyInt 1), "c"%string);
      ((PyInt 2, d0, PyInt 2), "c"%string) ]
  else
    [ ((PyInt 0, d0, PyInt 0), "nc"%string);
      ((PyInt 1, d0, PyInt 0), "nc"%string);
      ((PyInt 0, d0, PyInt 1), "nc"%string);
      ((PyInt 2, d0, PyInt 2), "nc"%string) ].

(** The seed loop:
    [for (order, trend) in orders: try: self._fit(...) except ValueError: continue] *)
Definition seed_phase (orders : list Candidate) : M unit :=
  for_in orders
    (fun c _ => try_except_ValueError (_fit (fst c) (snd c)) (ret tt)) tt.

(** The comprehensions that build the neighbourhoods of the incumbent. *)
Definition p_candidates (self : HyndmanKhandakar) : list pyint :=
  let best_p := key_p (order self) in
  filter (fun p => negb (int_ltb p (PyInt 0))
                   || negb (int_gtb p (PyInt (fst (conditions self)))))
         (np_arange (int_sub best_p (PyInt 1)) (int_add best_p (PyInt 2))).

Definition q_candidates (self : HyndmanKhandakar) : list pyint :=
  let best_q := key_q (order self) in
  filter (fun q => negb (int_ltb q (PyInt 0))
                   || negb (int_gtb q (PyInt (fst (conditions self)))))
         (np_arange (int_sub best_q (PyInt 1)) (int_add best_q (PyInt 2))).

(** The body of the innermost loop of [find]; [orders] is the local list
    of the candidates fitted so far. *)
Definition grid_body (p d0 q : pyint) (trend : string)
    (orders : list Candidate) : M (list Candidate) :=
  let order0 := (p, d0, q) in
  if candidate_in (order0, trend) orders then ret orders
  else
    try_except_ValueError
      (_fit order0 trend ;;; ret (orders ++ [(order0, trend)]))
      (ret orders).

(** The three nested loops of [find]. *)
Definition grid_phase (ps qs : list pyint) (d0 : pyint)
    (orders : list Candidate) : M (list Candidate) :=
  for_in ps (fun p =>
    for_in qs (fun q =>
      for_in ["c"; "nc"]%string (fun trend => grid_body p d0 q trend))) orders.

Definition find : M unit :=
  _get_differencing_degree ;;;
  self <- get ;;
  let d0 := key_d (order self) in
  setup <-
    (if full_search self then
       let stop := int_add (PyInt (fst (conditions self))) (PyInt 1) in
       ret ([], np_arange (PyInt 0) stop, np_arange (PyInt 0) stop)
     else
       let orders := seed_orders d0 in
       seed_phase orders ;;;
       self <- get ;;
       ret (orders, p_candidates self, q_candidates self)) ;;
  let '(orders, ps, qs) := setup in
  grid_phase ps qs d0 orders ;;;
  ret tt.

End Methods.

(** ** Vocabulary of the properties *)

Section Vocabulary.

Context {sm : Statsmodels}.

(** The object in the state [__init__] leaves it in. *)
Definition fresh (ts0 : Series) (alpha0 : pyfloat) (conditions0 : Z * pyfloat)
    (full_search0 : bool) (verbose0 : Z) : HyndmanKhandakar :=
  mkHK ts0 alpha0 conditions0 full_search0 verbose0
       None (mkOrder (PyInt 0) (PyInt 0) (PyInt 0) "nc") PInf [] None [].

(** The sentinel "no model": nothing accepted yet. *)
Definition is_sentinel (self : HyndmanKhandakar) : Prop :=
  model self = None /\ aicc self = PInf /\
  order self = mkOrder (PyInt 0) (PyInt 0) (PyInt 0) "nc".

(** The modulus of a root, a real number. *)
Definition modulus (z : complex) : R :=
  sqrt (Q2R (re z) * Q2R (re z) + Q2R (im z) * Q2R (im z)).

(** The real number [r] is strictly greater than the float [c]. *)
Definition exceeds (r : R) (c : pyfloat) : Prop :=
  match c with
  | Fin x => (Q2R x < r)%R
  | NInf => True
  | PInf | NaN => False
  end.

(** The stability/invertibility check of [_fit] on a fitted model. *)
Definition passes_root_checks (self : HyndmanKhandakar) (m : ARIMAResults)
    : bool :=
  all_abs_gt (arroots m) (snd (conditions self))
  && all_abs_gt (maroots m) (snd (conditions self)).

(** The state a successful evaluation leaves: the candidate replaces the
    incumbent when its AICc is strictly below and both root checks pass. *)
Definition after_evaluation (self : HyndmanKhandakar) (c : Candidate)
    (m : ARIMAResults) (a : pyfloat) : HyndmanKhandakar :=
  if flt a (aicc self) && passes_root_checks self m
  then set_incumbent self m (fst c) (snd c) a
  else self.

(** The candidates evaluated while the orchestrator works through [cs]:
    those that were fitted and given an AICc, each with its AICc and fitted
    model, in the order of evaluation.  A [ValueError] skips the candidate,
    any other exception ends the run. *)
Fixpoint evaluations (self : HyndmanKhandakar) (cs : list Candidate)
    : list (pyfloat * ARIMAResults) :=
  match cs with
  | [] => []
  | c :: rest =>
      match ARIMA_fit (ts self) (fst c) (snd c) (verbose self) with
      | Raise e => if is_ValueError e then evaluations self rest else []
      | Ok m =>
          match _correct_aic self (fst c) (snd c) (aic m) with
          | Raise e => if is_ValueError e then evaluations self rest else []
          | Ok a => (a, m) :: evaluations self rest
          end
      end
  end.

(** The AICc values of the evaluated candidates that satisfy the
    stability/invertibility check; an AICc that is [nan] is no value. *)
Definition checked_aiccs (self : HyndmanKhandakar) (cs : list Candidate)
    : list pyfloat :=
  map fst
    (filter (fun am => passes_root_checks self (snd am)
                       && negb (is_nan (fst am)))
            (evaluations self cs)).

(** [x] is the minimum of the list [l]. *)
Definition is_minimum (x : pyfloat) (l : list pyfloat) : Prop :=
  In x l /\ forall y, In y l -> fle x y = true.

(** The integers of an order are exact: all of them Python ints, or small
    enough for no [numpy.int64] operation of [_correct_aic] to wrap. *)
Definition exact_ints (p q : pyint) (len_ts : Z) : Prop :=
  (exists x y, p = PyInt x /\ q = PyInt y)
  \/ (Z.abs (ival p) <= 2 ^ 29 /\ Z.abs (ival q) <= 2 ^ 29
      /\ len_ts <= 2 ^ 62).

(** The kind of integer the arithmetic on [p] and [q] yields. *)
Definition is_numpy (a : pyint) : bool :=
  match a with NpInt _ => true | PyInt _ => false end.

Definition as_kind (p q : pyint) (z : Z) : pyint :=
  if is_numpy p || is_numpy q then NpInt z else PyInt z.

(** The number of estimated parameters [m = p + q + k + 1]. *)
Definition n_params (p q : pyint) (trend : string) : Z :=
  ival p + ival q + (if String.eqb trend "c" then 1 else 0) + 1.

Definition series_length (self : HyndmanKhandakar) : Z :=
  Z.of_nat (List.length (ts self)).

(** The degree [d] of a candidate. *)
Definition degree_of (c : Candidate) : pyint := snd (fst (fst c)).

(** The incumbent of [s], on the series and configuration of [self], is
    the sentinel or one candidate's fit with that candidate's order, trend
    and AICc. *)
Definition consistent_incumbent (self s : HyndmanKhandakar) : Prop :=
  is_sentinel s
  \/ exists o trend m,
       model s = Some m
       /\ ARIMA_fit (ts self) o trend (verbose self) = Ok m
       /\ _correct_aic self o trend (aic m) = Ok (aicc s)
       /\ order s = mkOrder (fst (fst o)) (snd (fst o)) (snd o) trend
       /\ passes_root_checks self m = true
       /\ flt (aicc s) PInf = true.

(** [dict[key]] on an association list; [None] for a missing key. *)
Fixpoint dict_get {V : Type} (key : Z) (dict : list (Z * V)) : option V :=
  match dict with
  | [] => None
  | (k', v') :: rest => if k' =? key then Some v' else dict_get key rest
  end.

(** The series differenced [k] times. *)
Fixpoint differenced (k : nat) (ts0 : Series) : Series :=
  match k with
  | O => ts0
  | S k' => differenced k' (diff_dropna ts0)
  end.

(** The two p-values of a series, ADF first, where both tests return. *)
Definition test_p_values (ts0 : Series) : option (pyfloat * pyfloat) :=
  match adfuller ts0, kpss ts0 with
  | Ok p_adf, Ok p_kpss => Some (p_adf, p_kpss)
  | _, _ => None
  end.

(** The decision rule of [_test]: [p_kpss < alpha or p_adf >= alpha]. *)
Definition needs_differencing (alpha0 : pyfloat) (ts0 : Series) : bool :=
  match test_p_values ts0 with
  | Some (p_adf, p_kpss) => flt p_kpss alpha0 || fge p_adf alpha0
  | None => false
  end.

(** What [(order, trend) in orders] compares of a candidate: the values
    of its integers and its trend. *)
Definition ckey (c : Candidate) : Z * Z * Z * string :=
  let '((p, d0, q), trend) := c in (ival p, ival d0, ival q, trend).

(** The candidates of the three nested loops of [find], in the order the
    loops reach them. *)
Definition grid_candidates (ps qs : list pyint) (d0 : pyint)
    : list Candidate :=
  flat_map (fun p =>
    flat_map (fun q =>
      map (fun trend => ((p, d0, q), trend)) ["c"; "nc"]%string) qs) ps.

(** One turn of the innermost loop, on the candidate as a whole. *)
Definition grid_step (c : Candidate) (orders : list Candidate)
    : M (list Candidate) :=
  let '((p, d0, q), trend) := c in grid_body p d0 q trend orders.

(** The candidates of [cands] that are not in [orders]. *)
Definition unvisited (orders cands : list Candidate) : list Candidate :=
  filter (fun c => negb (candidate_in c orders)) cands.

(** The hard-stop warning, where one is issued. *)
Definition hard_stop_warning (issued : bool) : list string :=
  if issued then [failed_to_stationarize] else [].

End Vocabulary.

(** ** Collaborators for the examples *)

(** Roots well outside the unit circle, and one too close to it. *)
Definition root_far : complex := mkComplex (3 # 2) (1 # 2).
Definition root_near : complex := mkComplex (1 # 2) (1 # 2).

(** A series the tests find stationary: ADF rejects the unit root, KPSS
    keeps stationarity.  The fit refuses negative orders with a
    [ValueError]; ARMA(2,1) has the lowest AIC, ARMA(1,1) an AIC below the
    rest but a root too close to the unit circle. *)
Definition fit_example (ts0 : Series) (o : Order) (trend : string) (disp : Z)
    : result ARIMAResults :=
  let '(p, _, q) := o in
  if (ival p <? 0) || (ival q <? 0) then Raise ValueError
  else if (ival p =? 2) && (ival q =? 1)
       then Ok (mkResults (Fin 280) [root_far; root_far] [root_far])
  else if (ival p =? 1) && (ival q =? 1)
       then Ok (mkResults (Fin 270) [root_near] [root_far])
  else Ok (mkResults (Fin (300 + inject_Z (ival p + ival q)))
                     (repeat root_far (Z.to_nat (ival p)))
                     (repeat root_far (Z.to_nat (ival q)))).

Definition sm_stationary : Statsmodels :=
  {| adfuller := fun _ => Ok (Fin (1 # 100));
     kpss := fun _ => Ok (Fin (1 # 10));
     ARIMA_fit := fit_example |}.

(** A series the tests send to differencing: ADF keeps the unit root. *)
Definition sm_unit_root : Statsmodels :=
  {| adfuller := fun _ => Ok (Fin (1 # 2));
     kpss := fun _ => Ok (Fin (1 # 100));
     ARIMA_fit := fit_example |}.

(** A fit that always succeeds with AIC 0 and no roots. *)
Definition sm_flat : Statsmodels :=
  {| adfuller := fun _ => Ok (Fin (1 # 100));
     kpss := fun _ => Ok (Fin (1 # 10));
     ARIMA_fit := fun _ _ _ _ => Ok (mkResults (Fin 0) [] []) |}.

(** A fit that answers an order with a negative [p] or [q] with an
    exception of its own, and fits every other order with AIC 0. *)
Definition sm_strict : Statsmodels :=
  {| adfuller := fun _ => Ok (Fin (1 # 100));
     kpss := fun _ => Ok (Fin (1 # 10));
     ARIMA_fit := fun _ o _ _ =>
       let '(p, _, q) := o in
       if (ival p <? 0) || (ival q <? 0)
       then Raise (OtherError "negative order")
       else Ok (mkResults (Fin 0) [] []) |}.

(** A series whose first difference the tests find stationary: KPSS
    rejects stationarity of a series of 100 observations and keeps it for
    every other length. *)
Definition sm_once : Statsmodels :=
  {| adfuller := fun _ => Ok (Fin (1 # 100));
     kpss := fun ts0 =>
       if Nat.eqb (List.length ts0) 100 then Ok (Fin (1 # 100))
       else Ok (Fin (1 # 10));
     ARIMA_fit := fit_example |}.

(** A fit that signals the failure of ARMA(1,0) by an exception that is
    no [ValueError], and fits every other order with AIC 0. *)
Definition sm_diverging : Statsmodels :=
  {| adfuller := fun _ => Ok (Fin (1 # 100));
     kpss := fun _ => Ok (Fin (1 # 10));
     ARIMA_fit := fun _ o _ _ =>
       let '(p, _, q) := o in
       if (ival p =? 1) && (ival q =? 0)
       then Raise (OtherError "non-convergence")
       else Ok (mkResults (Fin 0) [] []) |}.

(** A series of [n] observations. *)
Definition series_of (n : nat) : Series :=
  map (fun i => inject_Z (Z.of_nat i)) (seq 0 n).

(** * Properties *)

(** ** The order of the floats *)

Lemma Qlt_bool_iff (x y : Q) : Qlt_bool x y = true <-> (x < y)%Q.
Proof.
  unfold Qlt_bool. rewrite negb_true_iff.
  split; intro H.
  - apply Qnot_le_lt. intro Hle. apply Qle_bool_iff in Hle. congruence.
  - destruct (Qle_bool y x) eqn:E; [|reflexivity].
    apply Qle_bool_iff in E. exfalso. exact (Qlt_not_le _ _ H E).
Qed.

Lemma Qlt_bool_false_iff (x y : Q) : Qlt_bool x y = false <-> (y <= x)%Q.
Proof.
  unfold Qlt_bool. rewrite negb_false_iff. apply Qle_bool_iff.
Qed.

Lemma flt_not_nan (a b : pyfloat) :
  flt a b = true -> is_nan a = false /\ is_nan b = false.
Proof. destruct a, b; simpl; intro H; try discriminate; auto. Qed.

Lemma flt_irrefl (a : pyfloat) : flt a a = false.
Proof.
  destruct a; simpl; try reflexivity.
  apply Qlt_bool_false_iff. apply Qle_refl.
Qed.

Lemma fle_refl (a : pyfloat) : is_nan a = false -> fle a a = true.
Proof.
  destruct a; simpl; intro H; try reflexivity; try discriminate.
  apply Qle_bool_iff. apply Qle_refl.
Qed.

Lemma flt_fle (a b : pyfloat) : flt a b = true -> fle a b = true.
Proof.
  destruct a, b; simpl; intro H; try discriminate; try reflexivity.
  apply Qle_bool_iff. apply Qlt_le_weak. now apply Qlt_bool_iff.
Qed.

Lemma flt_fle_trans (a b c : pyfloat) :
  flt a b = true -> fle b c = true -> fle a c = true.
Proof.
  destruct a, b, c; simpl; intros H1 H2; try discriminate; try reflexivity.
  apply Qle_bool_iff. apply Qlt_bool_iff in H1. apply Qle_bool_iff in H2.
  apply Qlt_le_weak. eapply Qlt_le_trans; eassumption.
Qed.

Lemma fle_trans (a b c : pyfloat) :
  fle a b = true -> fle b c = true -> fle a c = true.
Proof.
  destruct a, b, c; simpl; intros H1 H2; try discriminate; try reflexivity.
  apply Qle_bool_iff. apply Qle_bool_iff in H1. apply Qle_bool_iff in H2.
  eapply Qle_trans; eassumption.
Qed.

Lemma flt_trans (a b c : pyfloat) :
  flt a b = true -> flt b c = true -> flt a c = true.
Proof.
  destruct a, b, c; simpl; intros H1 H2; try discriminate; try reflexivity.
  apply Qlt_bool_iff. apply Qlt_bool_iff in H1. apply Qlt_bool_iff in H2.
  eapply Qlt_trans; eassumption.
Qed.

(** On numbers the order is total: not below means at least. *)
Lemma not_flt_fle (a b : pyfloat) :
  is_nan a = false -> is_nan b = false -> flt a b = false -> fle b a = true.
Proof.
  destruct a, b; simpl; intros Ha Hb H; try discriminate; try reflexivity.
  apply Qle_bool_iff. now apply Qlt_bool_false_iff.
Qed.

Lemma fle_not_flt (a b : pyfloat) : fle a b = true -> flt b a = false.
Proof.
  destruct a, b; simpl; intro H; try discriminate; try reflexivity.
  apply Qlt_bool_false_iff. now apply Qle_bool_iff.
Qed.

Lemma fle_PInf_inv (a : pyfloat) : fle PInf a = true -> a = PInf.
Proof. destruct a; simpl; intro H; try discriminate; reflexivity. Qed.

(** Equal floats are not below one another. *)
Lemma feq_not_flt (a b : pyfloat) : feq a b = true -> flt a b = false.
Proof.
  destruct a, b; simpl; intro H; try discriminate; try reflexivity.
  apply Qlt_bool_false_iff. apply Qeq_bool_iff in H. rewrite H.
  apply Qle_refl.
Qed.

(** ** The 64-bit wrap-around *)

Lemma wrap64_small (z : Z) : - 2 ^ 63 <= z < 2 ^ 63 -> wrap64 z = z.
Proof.
  intro H. unfold wrap64.
  rewrite Z.mod_small; lia.
Qed.

(** ** What one evaluation does *)

Section Evaluation.

Context {sm : Statsmodels}.

Lemma _fit_spec (o : Order) (trend : string) (self : HyndmanKhandakar) :
  _fit o trend self =
  match ARIMA_fit (ts self) o trend (verbose self) with
  | Raise e => (Raise e, self)
  | Ok m =>
      match _correct_aic self o trend (aic m) with
      | Raise e => (Raise e, self)
      | Ok a => (Ok tt, after_evaluation self (o, trend) m a)
      end
  end.
Proof.
  unfold _fit, bind, get, lift, after_evaluation, passes_root_checks.
  destruct (ARIMA_fit (ts self) o trend (verbose self)) as [m|e];
    [|reflexivity].
  destruct (_correct_aic self o trend (aic m)) as [a|e]; [|reflexivity].
  simpl. destruct (flt a (aicc self)); [|reflexivity].
  simpl.
  destruct (all_abs_gt (arroots m) (snd (conditions self))
            && all_abs_gt (maroots m) (snd (conditions self)));
    reflexivity.
Qed.

Lemma set_incumbent_fields (self : HyndmanKhandakar) (m : ARIMAResults)
    (o : Order) (trend : string) (a : pyfloat) :
  let s' := set_incumbent self m o trend a in
  ts s' = ts self /\ alpha s' = alpha self /\
  conditions s' = conditions self /\ full_search s' = full_search self /\
  verbose s' = verbose self /\ p_values s' = p_values self /\
  d s' = d self /\ warnings s' = warnings self /\
  model s' = Some m /\ aicc s' = a /\
  order s' = mkOrder (fst (fst o)) (snd (fst o)) (snd o) trend.
Proof. destruct o as [[p dd] q]. simpl. repeat split. Qed.

(** An evaluation writes the incumbent only. *)
Lemma after_evaluation_frame (self : HyndmanKhandakar) (c : Candidate)
    (m : ARIMAResults) (a : pyfloat) :
  let s' := after_evaluation self c m a in
  ts s' = ts self /\ conditions s' = conditions self /\
  verbose s' = verbose self /\ p_values s' = p_values self /\
  d s' = d self /\ full_search s' = full_search self.
Proof.
  unfold after_evaluation.
  destruct (flt a (aicc self) && passes_root_checks self m);
    [|repeat split].
  pose proof (set_incumbent_fields self m (fst c) (snd c) a) as H.
  simpl in H. intuition.
Qed.

(** One turn of the seed loop. *)
Lemma seed_phase_cons (c : Candidate) (cs : list Candidate)
    (self : HyndmanKhandakar) :
  seed_phase (c :: cs) self =
  match ARIMA_fit (ts self) (fst c) (snd c) (verbose self) with
  | Raise e => if is_ValueError e then seed_phase cs self else (Raise e, self)
  | Ok m =>
      match _correct_aic self (fst c) (snd c) (aic m) with
      | Raise e =>
          if is_ValueError e then seed_phase cs self else (Raise e, self)
      | Ok a => seed_phase cs (after_evaluation self c m a)
      end
  end.
Proof.
  unfold seed_phase. simpl. unfold bind at 1, try_except_ValueError.
  rewrite _fit_spec.
  destruct (ARIMA_fit (ts self) (fst c) (snd c) (verbose self)) as [m|e].
  - destruct (_correct_aic self (fst c) (snd c) (aic m)) as [a|e].
    + destruct c as [o t]. reflexivity.
    + destruct (is_ValueError e); reflexivity.
  - destruct (is_ValueError e); reflexivity.
Qed.

Lemma seed_phase_nil (self : HyndmanKhandakar) :
  seed_phase [] self = (Ok tt, self).
Proof. reflexivity. Qed.

(** Two runs of evaluations in sequence are one run. *)
Lemma seed_phase_app (cs1 cs2 : list Candidate) (self : HyndmanKhandakar) :
  seed_phase (cs1 ++ cs2) self =
  match seed_phase cs1 self with
  | (Ok _, s1) => seed_phase cs2 s1
  | (Raise e, s1) => (Raise e, s1)
  end.
Proof.
  revert self. induction cs1 as [|c cs1 IH]; intro self.
  - reflexivity.
  - rewrite <- app_comm_cons. rewrite !seed_phase_cons.
    destruct (ARIMA_fit (ts self) (fst c) (snd c) (verbose self)) as [m|e].
    + destruct (_correct_aic self (fst c) (snd c) (aic m)) as [a|e].
      * apply IH.
      * destruct (is_ValueError e); [apply IH | reflexivity].
    + destruct (is_ValueError e); [apply IH | reflexivity].
Qed.

(** What an evaluation reads of the object, the correction included,
    depends on the series only. *)
Lemma _correct_aic_frame (s1 s2 : HyndmanKhandakar) (o : Order)
    (trend : string) (a : pyfloat) :
  ts s1 = ts s2 -> _correct_aic s1 o trend a = _correct_aic s2 o trend a.
Proof. intro H. unfold _correct_aic. rewrite H. reflexivity. Qed.

Lemma evaluations_frame (s1 s2 : HyndmanKhandakar) (cs : list Candidate) :
  ts s1 = ts s2 -> verbose s1 = verbose s2 ->
  evaluations s1 cs = evaluations s2 cs.
Proof.
  intros Hts Hv. induction cs as [|c cs IH]; [reflexivity|].
  simpl. rewrite Hts, Hv, IH.
  destruct (ARIMA_fit (ts s2) (fst c) (snd c) (verbose s2)) as [m|e];
    [|reflexivity].
  rewrite (_correct_aic_frame s1 s2) by exact Hts. reflexivity.
Qed.

Lemma checked_aiccs_frame (s1 s2 : HyndmanKhandakar) (cs : list Candidate) :
  ts s1 = ts s2 -> verbose s1 = verbose s2 ->
  conditions s1 = conditions s2 ->
  checked_aiccs s1 cs = checked_aiccs s2 cs.
Proof.
  intros Hts Hv Hc. unfold checked_aiccs, passes_root_checks.
  rewrite (evaluations_frame s1 s2) by assumption. rewrite Hc. reflexivity.
Qed.

(** An invariant of the accepting evaluations is an invariant of a run
    of evaluations, however the run ends. *)
Lemma seed_phase_invariant (P : HyndmanKhandakar -> Prop)
    (cs : list Candidate) :
  (forall s c m a,
      In c cs -> P s ->
      ARIMA_fit (ts s) (fst c) (snd c) (verbose s) = Ok m ->
      _correct_aic s (fst c) (snd c) (aic m) = Ok a ->
      flt a (aicc s) = true -> passes_root_checks s m = true ->
      P (set_incumbent s m (fst c) (snd c) a)) ->
  forall s, P s -> P (snd (seed_phase cs s)).
Proof.
  induction cs as [|c cs IH]; intros Hstep s Hs.
  - exact Hs.
  - assert (Hrest : P (snd (seed_phase cs s))).
    { apply IH; [|exact Hs]. intros. eapply Hstep; eauto. now right. }
    rewrite seed_phase_cons.
    destruct (ARIMA_fit (ts s) (fst c) (snd c) (verbose s)) as [m|e] eqn:Ef.
    + destruct (_correct_aic s (fst c) (snd c) (aic m)) as [a|e] eqn:Ec.
      * apply IH. { intros. eapply Hstep; eauto. now right. }
        unfold after_evaluation.
        destruct (flt a (aicc s)) eqn:El; [|exact Hs].
        destruct (passes_root_checks s m) eqn:Ep; [|exact Hs].
        simpl. eapply Hstep; eauto. now left.
      * destruct (is_ValueError e); [exact Hrest | exact Hs].
    + destruct (is_ValueError e); [exact Hrest | exact Hs].
Qed.

End Evaluation.

(** ** The orchestration *)

Section Orchestration.

Context {sm : Statsmodels}.

(** While the attribute [d] is absent, [_test] ends in its first call:
    with the exception of a test, with an [AttributeError] where it would
    difference, or with a plain return; nothing is written. *)
Lemma _test_without_d (depth : nat) (ts0 : Series) (self : HyndmanKhandakar) :
  d self = None ->
  _test (S depth) ts0 self =
  match adfuller ts0 with
  | Raise e => (Raise e, self)
  | Ok p_adf =>
      match kpss ts0 with
      | Raise e => (Raise e, self)
      | Ok p_kpss =>
          if flt p_kpss (alpha self) || fge p_adf (alpha self)
          then (Raise AttributeError, self)
          else (Ok tt, self)
      end
  end.
Proof.
  intro Hd. simpl. unfold bind, lift, get.
  destruct (adfuller ts0) as [p_adf|e]; [|reflexivity].
  destruct (kpss ts0) as [p_kpss|e]; [|reflexivity].
  destruct (flt p_kpss (alpha self) || fge p_adf (alpha self));
    [|reflexivity].
  unfold getattr_d. rewrite Hd. reflexivity.
Qed.

Lemma _get_differencing_degree_without_d (self : HyndmanKhandakar) :
  d self = None ->
  _get_differencing_degree self =
  match adfuller (ts self) with
  | Raise e => (Raise e, self)
  | Ok p_adf =>
      match kpss (ts self) with
      | Raise e => (Raise e, self)
      | Ok p_kpss =>
          if flt p_kpss (alpha self) || fge p_adf (alpha self)
          then (Raise AttributeError, self)
          else (Ok tt, self)
      end
  end.
Proof.
  intro Hd. unfold _get_differencing_degree, bind, get.
  change recursion_limit with (S 999).
  destruct (verbose self =? 0); apply _test_without_d; exact Hd.
Qed.

Lemma _get_differencing_degree_without_d_state (self : HyndmanKhandakar) :
  d self = None -> snd (_get_differencing_degree self) = self.
Proof.
  intro Hd. rewrite _get_differencing_degree_without_d by exact Hd.
  destruct (adfuller (ts self)); [|reflexivity].
  destruct (kpss (ts self)); [|reflexivity].
  destruct (flt _ _ || fge _ _); reflexivity.
Qed.

(** A loop whose turns are runs of evaluations is a run of evaluations. *)
Lemma for_in_runs_fits {A : Type} (Q : Candidate -> Prop)
    (body : A -> list Candidate -> M (list Candidate)) :
  (forall x acc s, exists cs,
      Forall Q cs /\
      bind (body x acc) (fun _ => ret tt) s = seed_phase cs s) ->
  forall xs acc s, exists cs,
      Forall Q cs /\
      bind (for_in xs body acc) (fun _ => ret tt) s = seed_phase cs s.
Proof.
  intros Hbody xs. induction xs as [|x xs IH]; intros acc s.
  - exists []. split; [constructor | reflexivity].
  - destruct (Hbody x acc s) as (cs1 & HQ1 & H1).
    simpl. unfold bind in *.
    destruct (body x acc s) as [[acc'|e] s1].
    + destruct (IH acc' s1) as (cs2 & HQ2 & H2).
      exists (cs1 ++ cs2). split; [now apply Forall_app|].
      rewrite seed_phase_app, <- H1. exact H2.
    + exists cs1. split; assumption.
Qed.

Lemma grid_body_runs_fits (p d0 q : pyint) (trend : string)
    (orders : list Candidate) (s : HyndmanKhandakar) :
  exists cs,
    Forall (fun c => degree_of c = d0) cs /\
    bind (grid_body p d0 q trend orders) (fun _ => ret tt) s
    = seed_phase cs s.
Proof.
  unfold grid_body.
  destruct (candidate_in (p, d0, q, trend) orders).
  - exists []. split; [constructor | reflexivity].
  - exists [((p, d0, q), trend)]. split.
    + constructor; [reflexivity | constructor].
    + rewrite seed_phase_cons, seed_phase_nil.
      unfold bind, try_except_ValueError. rewrite _fit_spec.
      cbn [fst snd].
      destruct (ARIMA_fit (ts s) (p, d0, q) trend (verbose s)) as [m|e].
      * destruct (_correct_aic s (p, d0, q) trend (aic m)) as [a|e].
        -- reflexivity.
        -- destruct (is_ValueError e); reflexivity.
      * destruct (is_ValueError e); reflexivity.
Qed.

Lemma grid_phase_runs_fits (ps qs : list pyint) (d0 : pyint)
    (orders : list Candidate) (s : HyndmanKhandakar) :
  exists cs,
    Forall (fun c => degree_of c = d0) cs /\
    bind (grid_phase ps qs d0 orders) (fun _ => ret tt) s = seed_phase cs s.
Proof.
  unfold grid_phase.
  apply for_in_runs_fits. intros p acc1 s1.
  apply for_in_runs_fits. intros q acc2 s2.
  apply for_in_runs_fits. intros trend acc3 s3.
  apply grid_body_runs_fits.
Qed.

Lemma seed_orders_degree (d0 : pyint) :
  Forall (fun c => degree_of c = d0) (seed_orders d0).
Proof.
  unfold seed_orders. destruct (int_leb d0 (PyInt 1));
    repeat constructor.
Qed.

(** After the differencing phase a run of [find] is a run of evaluations,
    all of them at the degree read from [self.order]. *)
Lemma find_runs_fits (self : HyndmanKhandakar) :
  match _get_differencing_degree self with
  | (Raise e, s1) => find self = (Raise e, s1)
  | (Ok _, s1) =>
      exists cs,
        Forall (fun c => degree_of c = key_d (order s1)) cs /\
        find self = seed_phase cs s1
  end.
Proof.
  destruct (_get_differencing_degree self) as [[[]|e] s1] eqn:Ediff;
    unfold find; unfold bind at 1; rewrite Ediff; [|reflexivity].
  unfold bind at 1. unfold get at 1.
  set (d0 := key_d (order s1)).
  destruct (full_search s1) eqn:Efs.
  - unfold bind at 1. unfold ret at 1.
    apply grid_phase_runs_fits.
  - unfold bind at 1. unfold bind at 1.
    pose proof (seed_phase_app (seed_orders d0)) as Happ.
    destruct (seed_phase (seed_orders d0) s1) as [[[]|e] s2] eqn:Eseed.
    + unfold bind at 1. unfold get at 1. unfold ret at 1.
      destruct (grid_phase_runs_fits (p_candidates s2) (q_candidates s2) d0
                  (seed_orders d0) s2) as (cs2 & HQ & H2).
      exists (seed_orders d0 ++ cs2). split.
      * apply Forall_app. split; [apply seed_orders_degree | exact HQ].
      * rewrite Happ, Eseed. exact H2.
    + exists (seed_orders d0). split; [apply seed_orders_degree|].
      now rewrite Eseed.
Qed.

End Orchestration.

(** ** The neighbourhoods of the stepwise search *)

Section Neighbourhoods.

Lemma filter_all {A : Type} (f : A -> bool) (l : list A) :
  (forall x, In x l -> f x = true) -> filter f l = l.
Proof.
  induction l as [|x l IH]; intro H; [reflexivity|].
  simpl. rewrite (H x (or_introl eq_refl)). f_equal.
  apply IH. intros y Hy. apply H. now right.
Qed.

(** With a bound [max_order >= 0] the condition of the comprehension,
    [not p < 0 or not p > max_order], holds of every integer: nothing is
    filtered out. *)
Lemma p_candidates_unfiltered (self : HyndmanKhandakar) :
  0 <= fst (conditions self) ->
  p_candidates self =
  np_arange (int_sub (key_p (order self)) (PyInt 1))
            (int_add (key_p (order self)) (PyInt 2)).
Proof.
  intro Hmax. unfold p_candidates. apply filter_all.
  intros p _. unfold int_ltb, int_gtb. simpl.
  destruct (ival p <? 0) eqn:E1; [|reflexivity].
  apply Z.ltb_lt in E1. simpl.
  rewrite negb_true_iff. rewrite Z.gtb_ltb. apply Z.ltb_ge. lia.
Qed.

Lemma q_candidates_unfiltered (self : HyndmanKhandakar) :
  0 <= fst (conditions self) ->
  q_candidates self =
  np_arange (int_sub (key_q (order self)) (PyInt 1))
            (int_add (key_q (order self)) (PyInt 2)).
Proof.
  intro Hmax. unfold q_candidates. apply filter_all.
  intros q _. unfold int_ltb, int_gtb. simpl.
  destruct (ival q <? 0) eqn:E1; [|reflexivity].
  apply Z.ltb_lt in E1. simpl.
  rewrite negb_true_iff. rewrite Z.gtb_ltb. apply Z.ltb_ge. lia.
Qed.

(** C1, at the input where the code departs from it.  With the default
    bound [max_order = 5] and the incumbent at [p = q = 0] (the trivial
    model), the neighbourhoods are [-1, 0, 1]: the neighbour [-1] lies
    outside [0, max_order] and is kept; with the incumbent at the bound,
    the neighbour [max_order + 1] is kept as well.  The orders with [-1]
    do reach the fit: with a fit that answers them with an exception of
    its own, a stepwise [find] ends with that exception. *)
Theorem neighbourhoods_keep_out_of_range :
  (forall ts0 : Series,
      let self := fresh ts0 default_alpha default_conditions false 0 in
      p_candidates self = [NpInt (-1); NpInt 0; NpInt 1] /\
      q_candidates self = [NpInt (-1); NpInt 0; NpInt 1]) /\
  (forall (ts0 : Series) (m : ARIMAResults),
      let self :=
        set_incumbent (fresh ts0 default_alpha default_conditions false 0)
                      m (NpInt 5, PyInt 0, NpInt 5) "c" (Fin 0) in
      p_candidates self = [NpInt 4; NpInt 5; NpInt 6] /\
      q_candidates self = [NpInt 4; NpInt 5; NpInt 6]) /\
  fst (@find sm_strict
         (fresh (series_of 100) default_alpha default_conditions false 0))
  = Raise (OtherError "negative order").
Proof.
  split; [|split].
  - intros; split; reflexivity.
  - intros; split; reflexivity.
  - vm_compute. reflexivity.
Qed.

End Neighbourhoods.

(** ** The differencing phase *)

Section Differencing.

Context {sm : Statsmodels}.

Lemma __init___fresh (ts0 : Series) (alpha0 : pyfloat)
    (conditions0 : Z * pyfloat) (full_search0 : bool) (verbose0 : Z)
    (s0 : HyndmanKhandakar) :
  __init__ ts0 alpha0 conditions0 full_search0 verbose0 = Ok s0 ->
  s0 = fresh ts0 alpha0 conditions0 full_search0 verbose0.
Proof. unfold __init__, fresh. intro H. now inversion H. Qed.

(** C2.  On the object as [__init__] builds it, whenever the tests on the
    original series ask for differencing ([p_kpss < alpha] or
    [p_adf >= alpha]), [find] raises [AttributeError] and has written
    nothing; and a run of [find] that returns has left the attribute [d]
    absent and [p_values] empty, has fitted orders of degree 0 only, and
    ends with [order["d"] = 0]. *)
Theorem find_differencing_raises_AttributeError
    (ts0 : Series) (alpha0 : pyfloat) (conditions0 : Z * pyfloat)
    (full_search0 : bool) (verbose0 : Z) (s0 : HyndmanKhandakar) :
  __init__ ts0 alpha0 conditions0 full_search0 verbose0 = Ok s0 ->
  (forall p_adf p_kpss,
      adfuller ts0 = Ok p_adf -> kpss ts0 = Ok p_kpss ->
      flt p_kpss alpha0 || fge p_adf alpha0 = true ->
      find s0 = (Raise AttributeError, s0))
  /\
  (forall s', find s0 = (Ok tt, s') ->
      d s' = None /\ p_values s' = [] /\ key_d (order s') = PyInt 0 /\
      exists cs,
        Forall (fun c => degree_of c = PyInt 0) cs /\
        find s0 = seed_phase cs s0).
Proof.
  intro Hinit. apply __init___fresh in Hinit.
  assert (Hd : d s0 = None) by (subst s0; reflexivity).
  pose proof (find_runs_fits s0) as Hfind.
  rewrite (_get_differencing_degree_without_d s0 Hd) in Hfind.
  assert (Hts : ts s0 = ts0) by (subst s0; reflexivity).
  assert (Hal : alpha s0 = alpha0) by (subst s0; reflexivity).
  rewrite Hts, Hal in Hfind.
  split.
  - intros p_adf p_kpss Ha Hk Hcond.
    rewrite Ha, Hk, Hcond in Hfind. exact Hfind.
  - intros s' Hrun.
    destruct (adfuller ts0) as [p_adf|e];
      [|rewrite Hfind in Hrun; discriminate].
    destruct (kpss ts0) as [p_kpss|e];
      [|rewrite Hfind in Hrun; discriminate].
    destruct (flt p_kpss alpha0 || fge p_adf alpha0);
      [rewrite Hfind in Hrun; discriminate|].
    destruct Hfind as (cs & Hdeg & Hfind).
    assert (Hd0 : key_d (order s0) = PyInt 0) by (subst s0; reflexivity).
    rewrite Hd0 in Hdeg.
    assert (Hinv : d s' = None /\ p_values s' = [] /\
                   key_d (order s') = PyInt 0).
    { replace s' with (snd (seed_phase cs s0))
        by (rewrite <- Hfind, Hrun; reflexivity).
      apply (seed_phase_invariant
               (fun s => d s = None /\ p_values s = [] /\
                         key_d (order s) = PyInt 0)).
      - intros s c m a Hin (H1 & H2 & H3) _ _ _ _.
        pose proof (set_incumbent_fields s m (fst c) (snd c) a) as F.
        simpl in F. destruct F as (_ & _ & _ & _ & _ & F1 & F2 & _ & _ & _ & F3).
        rewrite F1, F2, F3. simpl.
        rewrite Forall_forall in Hdeg. specialize (Hdeg c Hin).
        unfold degree_of in Hdeg. auto.
      - subst s0. repeat split. }
    destruct Hinv as (H1 & H2 & H3).
    repeat split; try assumption.
    exists cs. split; assumption.
Qed.

(** Where the attribute [d] has been assigned, [_test] is the estimator
    the docstring describes: one step of it, the bound on the degree, and
    its termination within three calls. *)
Lemma _test_step (depth : nat) (ts0 : Series) (self : HyndmanKhandakar)
    (v : pyint) :
  d self = Some v ->
  _test (S depth) ts0 self =
  match adfuller ts0 with
  | Raise e => (Raise e, self)
  | Ok p_adf =>
      match kpss ts0 with
      | Raise e => (Raise e, self)
      | Ok p_kpss =>
          if flt p_kpss (alpha self) || fge p_adf (alpha self) then
            if int_eqb v (PyInt 2) then
              (Ok tt,
               if negb (verbose self =? 0)
               then add_warning self failed_to_stationarize
               else self)
            else
              _test depth (diff_dropna ts0)
                (set_d (set_p_values self
                          (dict_set (ival v) (p_adf, p_kpss) (p_values self)))
                       (int_add v (PyInt 1)))
          else (Ok tt, self)
      end
  end.
Proof.
  intro Hd. simpl. unfold bind, lift, get.
  destruct (adfuller ts0) as [p_adf|e]; [|reflexivity].
  destruct (kpss ts0) as [p_kpss|e]; [|reflexivity].
  destruct (flt p_kpss (alpha self) || fge p_adf (alpha self));
    [|reflexivity].
  unfold getattr_d. rewrite Hd.
  destruct (int_eqb v (PyInt 2)).
  - destruct (negb (verbose self =? 0)); reflexivity.
  - unfold modify.
    repeat progress (cbn [d set_p_values set_d]; rewrite ?Hd).
    reflexivity.
Qed.

Lemma _test_degree_bound (depth : nat) :
  forall (ts0 : Series) (self : HyndmanKhandakar) (k : Z),
    d self = Some (PyInt k) -> 0 <= k <= 2 ->
    exists k', d (snd (_test depth ts0 self)) = Some (PyInt k')
               /\ k <= k' <= 2.
Proof.
  induction depth as [|depth IH]; intros ts0 self k Hd Hk.
  - exists k. split; [exact Hd | lia].
  - rewrite (_test_step depth ts0 self (PyInt k) Hd).
    destruct (adfuller ts0) as [p_adf|e];
      [|exists k; split; [exact Hd | lia]].
    destruct (kpss ts0) as [p_kpss|e];
      [|exists k; split; [exact Hd | lia]].
    destruct (flt p_kpss (alpha self) || fge p_adf (alpha self));
      [|exists k; split; [exact Hd | lia]].
    unfold int_eqb. cbn [ival].
    destruct (k =? 2) eqn:E.
    + exists k. split; [|lia].
      destruct (negb (verbose self =? 0)); exact Hd.
    + apply Z.eqb_neq in E.
      match goal with
      | |- context [_test depth ?t ?s] =>
          destruct (IH t s (k + 1)) as (k' & Hk' & Hb);
            [reflexivity | lia |]
      end.
      exists k'. split; [exact Hk' | lia].
Qed.

Lemma _test_returns (depth : nat) :
  (forall t, exists p, adfuller t = Ok p) ->
  (forall t, exists p, kpss t = Ok p) ->
  forall (ts0 : Series) (self : HyndmanKhandakar) (k : Z),
    d self = Some (PyInt k) -> 0 <= k <= 2 ->
    (Z.to_nat (3 - k) <= depth)%nat ->
    fst (_test depth ts0 self) = Ok tt.
Proof.
  intros Hadf Hkpss.
  induction depth as [|depth IH]; intros ts0 self k Hd Hk Hdepth; [lia|].
  rewrite (_test_step depth ts0 self (PyInt k) Hd).
  destruct (Hadf ts0) as (p_adf & ->). destruct (Hkpss ts0) as (p_kpss & ->).
  destruct (flt p_kpss (alpha self) || fge p_adf (alpha self));
    [|reflexivity].
  unfold int_eqb. cbn [ival].
  destruct (k =? 2) eqn:E; [reflexivity|].
  apply Z.eqb_neq in E.
  apply (IH _ _ (k + 1)); [reflexivity | lia | lia].
Qed.

(** C7, at the input where the code departs from it: a series whose tests
    ask for differencing (here ADF [p = 0.5], KPSS [p = 0.01], at
    [alpha = 0.05]).  The estimator neither increments a degree nor
    differences nor recurses: it raises [AttributeError] at [self.d == 2],
    and [find] with it. *)
Theorem differencing_estimator_raises_at_first_step :
  let self := fresh (series_of 100) default_alpha default_conditions false 0 in
  @_get_differencing_degree sm_unit_root self = (Raise AttributeError, self)
  /\ @find sm_unit_root self = (Raise AttributeError, self).
Proof.
  split; vm_compute; reflexivity.
Qed.

End Differencing.

Lemma find_differencing_raises_AttributeError_witness :
  let s0 := fresh (series_of 100) default_alpha default_conditions false 0 in
  @find sm_unit_root s0 = (Raise AttributeError, s0).
Proof.
  intro s0.
  refine (proj1 (@find_differencing_raises_AttributeError sm_unit_root
                   (series_of 100) default_alpha default_conditions false 0
                   s0 eq_refl)
                (Fin (1 # 2)) (Fin (1 # 100)) eq_refl eq_refl eq_refl).
Defined.

(** ** The AICc correction *)

Section Correction.

Lemma trend_term (trend : string) :
  exists kz,
    (if String.eqb trend "c" then PyInt 1 else PyInt 0) = PyInt kz /\
    (if String.eqb trend "c" then 1 else 0) = kz /\ 0 <= kz <= 1.
Proof.
  destruct (String.eqb trend "c"); eexists; repeat split; lia.
Qed.

Ltac unwrap64 :=
  repeat match goal with
         | |- context [wrap64 ?z] =>
             rewrite (wrap64_small z) by (try lia; nia)
         end.

(** With exact integers the correction divides [2 m (m + 1)] by
    [n - m - 1], as Python ints or as [numpy.int64] by the kind of [p]
    and [q]. *)
Lemma _correct_aic_division (self : HyndmanKhandakar) (p d0 q : pyint)
    (trend : string) (aic0 : pyfloat) :
  let m := n_params p q trend in
  let n := series_length self in
  exact_ints p q n ->
  _correct_aic self (p, d0, q) trend aic0 =
  match int_truediv (as_kind p q (2 * m * (m + 1)))
                    (as_kind p q (n - m - 1)) with
  | Ok x => Ok (fadd aic0 x)
  | Raise e => Raise e
  end.
Proof.
  intros m n Hex. unfold _correct_aic.
  destruct (trend_term trend) as (kz & -> & Hk & Hkb).
  subst m n. unfold n_params, series_length in *. rewrite Hk in *.
  set (len := Z.of_nat (List.length (ts self))) in *.
  assert (Hlen : 0 <= len) by (subst len; lia).
  assert (P29 : 2 ^ 29 = 536870912) by reflexivity.
  assert (P62 : 2 ^ 62 = 4611686018427387904) by reflexivity.
  assert (P63 : 2 ^ 63 = 9223372036854775808) by reflexivity.
  destruct p as [x|x], q as [y|y];
    unfold as_kind, int_add, int_sub, int_mul, int_op;
    cbn [ival is_numpy orb] in *; try reflexivity;
    (destruct Hex as [(x' & y' & Hx & Hy) | (Hp & Hq & Hn)];
     [discriminate
     | cbn [ival] in Hp, Hq; rewrite P29, ?P62 in *; unwrap64; reflexivity]).
Qed.

Lemma inject_Z_nonneg (z : Z) : 0 <= z -> (0 <= inject_Z z)%Q.
Proof. intro H. unfold Qle. simpl. lia. Qed.

Lemma inject_Z_pos (z : Z) : 0 < z -> (0 < inject_Z z)%Q.
Proof. intro H. unfold Qlt. simpl. lia. Qed.

Lemma inject_Z_neg (z : Z) : z < 0 -> (inject_Z z < 0)%Q.
Proof. intro H. unfold Qlt. simpl. lia. Qed.

(** The correction term [2 m (m + 1) / (n - m - 1)] has the sign of its
    denominator, or is zero. *)
Lemma correction_term_nonneg (m den : Z) :
  0 < den -> (0 <= inject_Z (2 * m * (m + 1)) / inject_Z den)%Q.
Proof.
  intro H. unfold Qdiv. apply Qmult_le_0_compat.
  - apply inject_Z_nonneg. nia.
  - apply Qinv_le_0_compat. apply inject_Z_nonneg. lia.
Qed.

Lemma correction_term_nonpos (m den : Z) :
  den < 0 -> (inject_Z (2 * m * (m + 1)) / inject_Z den <= 0)%Q.
Proof.
  intro H.
  assert (E : (inject_Z (2 * m * (m + 1)) / inject_Z den ==
               - (inject_Z (2 * m * (m + 1)) / inject_Z (- den)))%Q).
  { rewrite inject_Z_opp. field. intro Hz.
    pose proof (inject_Z_neg den H) as Hneg. rewrite Hz in Hneg.
    exact (Qlt_irrefl 0 Hneg). }
  rewrite E.
  pose proof (correction_term_nonneg m (- den) ltac:(lia)) as Hpos.
  lra.
Qed.

Lemma int_truediv_nonzero (p q : pyint) (num den : Z) :
  den <> 0 ->
  int_truediv (as_kind p q num) (as_kind p q den)
  = Ok (Fin (inject_Z num / inject_Z den)).
Proof.
  intro H. apply Z.eqb_neq in H. unfold as_kind, int_truediv.
  destruct (is_numpy p || is_numpy q); cbn [ival]; rewrite H; reflexivity.
Qed.

(** C8.  With [k = 1] for the trend ["c"] and [0] otherwise and
    [m = p + q + k + 1], the corrector returns
    [raw_aic + 2 m (m + 1) / (n - m - 1)] wherever the quotient is defined,
    and when [n - m - 1 > 0] the value it returns is at least [raw_aic]:
    the correction term is non-negative.  The integers are Python ints, or
    [numpy.int64] far from the 64-bit bounds. *)
Theorem correct_aic_formula (self : HyndmanKhandakar) (p d0 q : pyint)
    (trend : string) (raw_aic : Q) :
  let k := if String.eqb trend "c" then 1 else 0 in
  let m := ival p + ival q + k + 1 in
  let n := Z.of_nat (List.length (ts self)) in
  let correction := (inject_Z (2 * m * (m + 1)) / inject_Z (n - m - 1))%Q in
  exact_ints p q n ->
  (n - m - 1 <> 0 ->
   _correct_aic self (p, d0, q) trend (Fin raw_aic)
   = Ok (Fin (raw_aic + correction)))
  /\
  (0 < n - m - 1 ->
   (0 <= correction)%Q /\
   exists v, _correct_aic self (p, d0, q) trend (Fin raw_aic) = Ok v
             /\ fge v (Fin raw_aic) = true).
Proof.
  intros k m n correction Hex.
  assert (Hval : n - m - 1 <> 0 ->
                 _correct_aic self (p, d0, q) trend (Fin raw_aic)
                 = Ok (Fin (raw_aic + correction))).
  { intro Hden.
    rewrite (_correct_aic_division self p d0 q trend (Fin raw_aic) Hex).
    unfold n_params, series_length. fold k. fold m. fold n.
    rewrite int_truediv_nonzero by exact Hden. reflexivity. }
  split; [exact Hval|].
  intro Hpos.
  pose proof (correction_term_nonneg m (n - m - 1) Hpos) as Hc.
  fold correction in Hc. split; [exact Hc|].
  exists (Fin (raw_aic + correction)). split; [apply Hval; lia|].
  unfold fge, fle. apply Qle_bool_iff. lra.
Qed.

End Correction.

Lemma correct_aic_formula_witness :
  let self := fresh (series_of 100) default_alpha default_conditions false 0 in
  _correct_aic self (PyInt 2, PyInt 0, PyInt 1) "c" (Fin 280)
  = Ok (Fin (280 + inject_Z 60 / inject_Z 94)).
Proof.
  intro self.
  refine (proj1 (correct_aic_formula self (PyInt 2) (PyInt 0) (PyInt 1) "c"
                   280 _) _).
  - left. exists 2, 1. split; reflexivity.
  - vm_compute. discriminate.
Defined.

(** ** The degenerate correction *)

Section DegenerateCorrection.

Context {sm : Statsmodels}.

Lemma fadd_Fin_Fin (x y : Q) : fadd (Fin x) (Fin y) = Fin (x + y).
Proof. reflexivity. Qed.

(** Nothing is below [inf], and [nan] is below nothing. *)
Lemma flt_after_inf (a x : pyfloat) : flt (fadd a PInf) x = false.
Proof. destruct a, x; reflexivity. Qed.

Lemma flt_after_nan (a x : pyfloat) : flt (fadd a NaN) x = false.
Proof. destruct a, x; reflexivity. Qed.

(** C3, as the code has it.  Let [m = p + q + k + 1] and [n] the length
    of the series, the integers being exact.
    - [n - m - 1 = 0], [p] and [q] Python ints (the seed models): the
      corrector raises [ZeroDivisionError]; [_fit] passes it on with the
      object unchanged, and the loop of [find], which catches [ValueError]
      only, ends with it.
    - [n - m - 1 = 0], [p] or [q] a [numpy.int64] (the grid): the corrector
      returns a value that is below nothing ([inf], or [nan]), and the
      candidate does not become the incumbent.
    - [n - m - 1 < 0]: the corrector returns the finite value
      [raw_aic + 2 m (m + 1) / (n - m - 1)], at most [raw_aic], and the
      candidate is accepted as any other is: it becomes the incumbent when
      that value is below the incumbent's AICc and both root checks
      pass. *)
Theorem degenerate_correction_behaviour (self : HyndmanKhandakar)
    (p d0 q : pyint) (trend : string) (fitted : ARIMAResults)
    (cs : list Candidate) :
  let m := n_params p q trend in
  let n := series_length self in
  let c : Candidate := ((p, d0, q), trend) in
  exact_ints p q n ->
  ARIMA_fit (ts self) (p, d0, q) trend (verbose self) = Ok fitted ->
  (n - m - 1 = 0 -> is_numpy p || is_numpy q = false ->
   _correct_aic self (p, d0, q) trend (aic fitted) = Raise ZeroDivisionError
   /\ _fit (p, d0, q) trend self = (Raise ZeroDivisionError, self)
   /\ seed_phase (c :: cs) self = (Raise ZeroDivisionError, self))
  /\
  (n - m - 1 = 0 -> is_numpy p || is_numpy q = true ->
   (exists v, _correct_aic self (p, d0, q) trend (aic fitted) = Ok v
              /\ forall x, flt v x = false)
   /\ _fit (p, d0, q) trend self = (Ok tt, self))
  /\
  (n - m - 1 < 0 ->
   forall raw_aic, aic fitted = Fin raw_aic ->
     let v := (raw_aic + inject_Z (2 * m * (m + 1)) / inject_Z (n - m - 1))%Q in
     _correct_aic self (p, d0, q) trend (aic fitted) = Ok (Fin v)
     /\ (v <= raw_aic)%Q
     /\ (flt (Fin v) (aicc self) = true ->
         passes_root_checks self fitted = true ->
         _fit (p, d0, q) trend self
         = (Ok tt, set_incumbent self fitted (p, d0, q) trend (Fin v)))).
Proof.
  intros m n c Hex Hfit.
  pose proof (_correct_aic_division self p d0 q trend (aic fitted) Hex)
    as Hdiv.
  fold m n in Hdiv.
  pose proof (_fit_spec (p, d0, q) trend self) as Hspec.
  pose proof (seed_phase_cons c cs self) as Hseed.
  unfold c in Hseed. cbn [fst snd] in Hseed.
  rewrite Hfit in Hspec, Hseed.
  split; [|split].
  - intros Hden Hkind.
    assert (Hc : _correct_aic self (p, d0, q) trend (aic fitted)
                 = Raise ZeroDivisionError).
    { rewrite Hdiv, Hden. unfold as_kind. rewrite Hkind. reflexivity. }
    rewrite Hc in Hspec, Hseed. repeat split; assumption.
  - intros Hden Hkind.
    assert (Hc : exists v,
               _correct_aic self (p, d0, q) trend (aic fitted) = Ok v
               /\ forall x, flt v x = false).
    { rewrite Hdiv, Hden. unfold as_kind. rewrite Hkind.
      unfold int_truediv. cbn [ival]. rewrite Z.eqb_refl.
      destruct (0 <? 2 * m * (m + 1)) eqn:E1.
      - eexists. split; [reflexivity|]. apply flt_after_inf.
      - destruct (2 * m * (m + 1) <? 0) eqn:E2.
        + apply Z.ltb_lt in E2. nia.
        + eexists. split; [reflexivity|]. apply flt_after_nan. }
    split; [exact Hc|].
    destruct Hc as (v & Hc & Hv). rewrite Hc in Hspec.
    rewrite Hspec. unfold after_evaluation. rewrite Hv. reflexivity.
  - intros Hden raw_aic Hraw v.
    assert (Hc : _correct_aic self (p, d0, q) trend (aic fitted)
                 = Ok (Fin v)).
    { rewrite Hdiv. rewrite int_truediv_nonzero by lia.
      rewrite Hraw. reflexivity. }
    split; [exact Hc|]. split.
    + pose proof (correction_term_nonpos m (n - m - 1) Hden). unfold v. lra.
    + intros Hlt Hroots. rewrite Hspec, Hc.
      unfold after_evaluation. rewrite Hlt, Hroots. reflexivity.
Qed.

End DegenerateCorrection.

(** C3 as stated fails.  A series of two observations and the seed model
    [(0, 0, 0)] with constant have [n - m - 1 = -1]: the correction neither
    fails nor is infinite, it is [-12], and the candidate becomes the
    incumbent.  With three observations [n - m - 1 = 0], and the division
    by zero ends the run of [find]. *)
Lemma degenerate_correction_counterexample :
  let self2 := fresh (series_of 2) default_alpha default_conditions false 0 in
  let self3 := fresh (series_of 3) default_alpha default_conditions false 0 in
  let o := (PyInt 0, PyInt 0, PyInt 0) in
  series_length self2 - n_params (PyInt 0) (PyInt 0) "c" - 1 = -1
  /\ _correct_aic self2 o "c" (Fin 0) = Ok (Fin (-12))
  /\ model (snd (@_fit sm_flat o "c" self2)) = Some (mkResults (Fin 0) [] [])
  /\ aicc (snd (@_fit sm_flat o "c" self2)) = Fin (-12)
  /\ series_length self3 - n_params (PyInt 0) (PyInt 0) "c" - 1 = 0
  /\ @find sm_flat self3 = (Raise ZeroDivisionError, self3).
Proof.
  repeat split; vm_compute; reflexivity.
Qed.

Lemma degenerate_correction_behaviour_witness :
  let self := fresh (series_of 3) default_alpha default_conditions false 0 in
  @_fit sm_flat (PyInt 0, PyInt 0, PyInt 0) "c" self
  = (Raise ZeroDivisionError, self).
Proof.
  intro self.
  refine (proj1 (proj2 (proj1
            (@degenerate_correction_behaviour sm_flat self
               (PyInt 0) (PyInt 0) (PyInt 0) "c" (mkResults (Fin 0) [] []) []
               _ eq_refl) eq_refl eq_refl))).
  left. exists 0, 0. split; reflexivity.
Defined.

(** ** Construction *)

Section Construction.

(** C4, as the code has it.  [__init__] validates nothing: for every
    series and every configuration, an empty series and a negative bound
    included, it succeeds, stores its arguments as they are and leaves the
    object in the state "no model yet"; it runs no part of the search. *)
Theorem construction_never_fails (ts0 : Series) (alpha0 : pyfloat)
    (conditions0 : Z * pyfloat) (full_search0 : bool) (verbose0 : Z) :
  exists self,
    __init__ ts0 alpha0 conditions0 full_search0 verbose0 = Ok self
    /\ ts self = ts0 /\ alpha self = alpha0 /\ conditions self = conditions0
    /\ full_search self = full_search0 /\ verbose self = verbose0
    /\ is_sentinel self /\ p_values self = [] /\ d self = None
    /\ warnings self = [].
Proof.
  eexists. split; [reflexivity|]. unfold is_sentinel. simpl.
  repeat split.
Qed.

(** C4 as stated fails: with an empty series and the bound
    [max_order = -1] the construction succeeds. *)
Lemma construction_counterexample :
  __init__ [] default_alpha (-1, Fin (1001 # 1000)) false 0
  = Ok (fresh [] default_alpha (-1, Fin (1001 # 1000)) false 0)
  /\ forall e,
      __init__ [] default_alpha (-1, Fin (1001 # 1000)) false 0 <> Raise e.
Proof.
  split; [reflexivity | intros e H; discriminate H].
Qed.

End Construction.

(** ** Failures of the fit *)

Section FitFailure.

Context {sm : Statsmodels}.

(** The differencing phase writes [p_values], [d] and the warnings
    only. *)
Lemma _test_frame (depth : nat) (ts0 : Series) (self : HyndmanKhandakar) :
  let s' := snd (_test depth ts0 self) in
  ts s' = ts self /\ alpha s' = alpha self /\
  conditions s' = conditions self /\ full_search s' = full_search self /\
  verbose s' = verbose self /\ model s' = model self /\
  order s' = order self /\ aicc s' = aicc self.
Proof.
  revert ts0 self. induction depth as [|depth IH]; intros ts0 self.
  - simpl. repeat split.
  - simpl. unfold bind, lift, get.
    destruct (adfuller ts0) as [p_adf|e]; [|simpl; repeat split].
    destruct (kpss ts0) as [p_kpss|e]; [|simpl; repeat split].
    destruct (flt p_kpss (alpha self) || fge p_adf (alpha self));
      [|simpl; repeat split].
    unfold getattr_d.
    destruct (d self) as [d0|] eqn:Ed; [|simpl; repeat split].
    destruct (int_eqb d0 (PyInt 2)).
    + destruct (negb (verbose self =? 0)); simpl; repeat split.
    + unfold modify.
      repeat progress (cbn [d set_p_values set_d]; rewrite ?Ed).
      match goal with
      | |- context [_test depth ?t ?s] =>
          pose proof (IH t s) as H; simpl in H
      end.
      exact H.
Qed.

Lemma _get_differencing_degree_frame (self : HyndmanKhandakar) :
  let s' := snd (_get_differencing_degree self) in
  ts s' = ts self /\ alpha s' = alpha self /\
  conditions s' = conditions self /\ full_search s' = full_search self /\
  verbose s' = verbose self /\ model s' = model self /\
  order s' = order self /\ aicc s' = aicc self.
Proof.
  unfold _get_differencing_degree, bind, get.
  destruct (verbose self =? 0); apply _test_frame.
Qed.

(** Evaluations keep the series and the verbosity, hence the outcome of
    every fit. *)
Lemma seed_phase_frame (cs : list Candidate) (self : HyndmanKhandakar) :
  let s' := snd (seed_phase cs self) in
  ts s' = ts self /\ verbose s' = verbose self /\
  conditions s' = conditions self.
Proof.
  apply (seed_phase_invariant
           (fun s' => ts s' = ts self /\ verbose s' = verbose self /\
                      conditions s' = conditions self)).
  - intros s c m a _ (H1 & H2 & H3) _ _ _ _.
    pose proof (set_incumbent_fields s m (fst c) (snd c) a) as F.
    simpl in F. destruct F as (F1 & _ & F3 & _ & F5 & _).
    rewrite F1, F3, F5. auto.
  - auto.
Qed.

Lemma seed_phase_all_fail (cs : list Candidate) (self : HyndmanKhandakar) :
  (forall o trend,
      ARIMA_fit (ts self) o trend (verbose self) = Raise ValueError) ->
  seed_phase cs self = (Ok tt, self).
Proof.
  intro Hfail. induction cs as [|c cs IH]; [reflexivity|].
  rewrite seed_phase_cons, Hfail. exact IH.
Qed.

(** C9, as the code has it.  A candidate whose fit raises [ValueError],
    the one failure the orchestrator catches:
    - [_fit] raises it on without a change of the object;
    - in the seed phase the candidate is skipped: the loop behaves as
      without it, wherever it stands in the list;
    - in the grid phase the turn of the loop returns with the object and
      the list of fitted candidates unchanged, and the loop goes on with
      the next candidate;
    - when every fit fails so, [find] still returns once the differencing
      phase has, with the incumbent it had. *)
Theorem fit_failure_is_skipped (self : HyndmanKhandakar) :
  (forall (o : Order) (trend : string),
      ARIMA_fit (ts self) o trend (verbose self) = Raise ValueError ->
      _fit o trend self = (Raise ValueError, self))
  /\
  (forall (o : Order) (trend : string) (before rest : list Candidate),
      ARIMA_fit (ts self) o trend (verbose self) = Raise ValueError ->
      seed_phase (before ++ (o, trend) :: rest) self
      = seed_phase (before ++ rest) self)
  /\
  (forall (p d0 q : pyint) (trend : string) (orders : list Candidate)
          (trends : list string),
      ARIMA_fit (ts self) (p, d0, q) trend (verbose self) = Raise ValueError ->
      grid_body p d0 q trend orders self = (Ok orders, self)
      /\ for_in (trend :: trends) (grid_body p d0 q) orders self
         = for_in trends (grid_body p d0 q) orders self)
  /\
  ((forall o trend,
       ARIMA_fit (ts self) o trend (verbose self) = Raise ValueError) ->
   forall s1, _get_differencing_degree self = (Ok tt, s1) ->
     find self = (Ok tt, s1)
     /\ model s1 = model self /\ order s1 = order self
     /\ aicc s1 = aicc self).
Proof.
  split; [|split; [|split]].
  - intros o trend Hfail. rewrite _fit_spec, Hfail. reflexivity.
  - intros o trend before rest Hfail.
    rewrite !seed_phase_app.
    pose proof (seed_phase_frame before self) as (Hts & Hv & _).
    destruct (seed_phase before self) as [[[]|e] s1]; [|reflexivity].
    simpl in Hts, Hv.
    rewrite seed_phase_cons. cbn [fst snd]. rewrite Hts, Hv, Hfail.
    reflexivity.
  - intros p d0 q trend orders trends Hfail.
    assert (Hbody : grid_body p d0 q trend orders self = (Ok orders, self)).
    { unfold grid_body.
      destruct (candidate_in (p, d0, q, trend) orders); [reflexivity|].
      unfold try_except_ValueError, bind. rewrite _fit_spec, Hfail.
      reflexivity. }
    split; [exact Hbody|].
    simpl. unfold bind at 1. rewrite Hbody. reflexivity.
  - intros Hfail s1 Hdiff.
    pose proof (_get_differencing_degree_frame self) as F.
    pose proof (find_runs_fits self) as Hfind.
    rewrite Hdiff in F, Hfind. simpl in F.
    destruct F as (Fts & _ & _ & _ & Fv & Fm & Fo & Fa).
    destruct Hfind as (cs & _ & Hfind).
    split; [|auto].
    rewrite Hfind. apply seed_phase_all_fail.
    intros o trend. rewrite Fts, Fv. apply Hfail.
Qed.

End FitFailure.

Lemma fit_failure_is_skipped_witness :
  let self := fresh (series_of 100) default_alpha default_conditions false 0 in
  @grid_body sm_stationary (NpInt (-1)) (PyInt 0) (NpInt 0) "c"
             (seed_orders (PyInt 0)) self
  = (Ok (seed_orders (PyInt 0)), self).
Proof.
  intro self.
  refine (proj1 (proj1 (proj2 (proj2
            (@fit_failure_is_skipped sm_stationary self)))
            (NpInt (-1)) (PyInt 0) (NpInt 0) "c"%string
            (seed_orders (PyInt 0)) [] eq_refl)).
Defined.

(** C9 as stated fails.  A fit that signals its failure by an exception
    other than [ValueError] is not recovered.  In the seed phase: the
    third seed, ARMA(1,0) with constant, fails so, and the seed loop and
    [find] end with that exception.  In the grid phase: the neighbour with
    [p = -1] fails so, and the turn of the loop and [find] end with that
    exception. *)
Lemma fit_failure_counterexample :
  let self := fresh (series_of 100) default_alpha default_conditions false 0 in
  @ARIMA_fit sm_diverging (ts self) (PyInt 1, PyInt 0, PyInt 0) "c"
             (verbose self)
  = Raise (OtherError "non-convergence")
  /\ fst (@seed_phase sm_diverging (seed_orders (PyInt 0)) self)
     = Raise (OtherError "non-convergence")
  /\ fst (@find sm_diverging self) = Raise (OtherError "non-convergence")
  /\ @ARIMA_fit sm_strict (ts self) (NpInt (-1), PyInt 0, NpInt 0) "c"
                (verbose self)
     = Raise (OtherError "negative order")
  /\ @grid_body sm_strict (NpInt (-1)) (PyInt 0) (NpInt 0) "c"
                (seed_orders (PyInt 0)) self
     = (Raise (OtherError "negative order"), self)
  /\ fst (@find sm_strict self) = Raise (OtherError "negative order").
Proof.
  repeat split; vm_compute; reflexivity.
Qed.

(** ** The incumbent along a run *)

Section Incumbent.

Context {sm : Statsmodels}.

(** The state [find] ends in is the state of a run of evaluations that
    starts after the differencing phase. *)
Lemma find_state (self : HyndmanKhandakar) :
  exists cs,
    snd (find self) = snd (seed_phase cs (snd (_get_differencing_degree self))).
Proof.
  pose proof (find_runs_fits self) as H.
  destruct (_get_differencing_degree self) as [[[]|e] s1].
  - destruct H as (cs & _ & H). exists cs. now rewrite H.
  - exists []. now rewrite H.
Qed.

Lemma find_state_fresh (self : HyndmanKhandakar) :
  d self = None ->
  exists cs, snd (find self) = snd (seed_phase cs self).
Proof.
  intro Hd. destruct (find_state self) as (cs & H).
  rewrite (_get_differencing_degree_without_d_state self Hd) in H.
  now exists cs.
Qed.

(** The comparison [np.abs(z) > c] of the code decides whether the
    modulus of [z] exceeds [c]. *)
Lemma np_abs_gt_Fin (z : complex) (x : Q) :
  np_abs_gt z (Fin x) = true <-> (Q2R x < modulus z)%R.
Proof.
  unfold np_abs_gt, modulus.
  rewrite orb_true_iff, !Qlt_bool_iff.
  set (s := (Q2R (re z) * Q2R (re z) + Q2R (im z) * Q2R (im z))%R).
  assert (Hs : (0 <= s)%R) by (unfold s; Lra.nra).
  assert (Hsq : Q2R (re z * re z + im z * im z) = s).
  { unfold s. rewrite Q2R_plus, !Q2R_mult. reflexivity. }
  assert (Hzero : Q2R 0 = 0%R) by (unfold Q2R; simpl; Lra.lra).
  pose proof (sqrt_pos s) as Hroot.
  split.
  - intros [H|H].
    + apply Qlt_Rlt in H. Lra.lra.
    + apply Qlt_Rlt in H. rewrite Hsq, Q2R_mult in H.
      destruct (Rlt_le_dec (Q2R x) 0) as [Hn|Hp]; [Lra.lra|].
      rewrite <- (sqrt_square (Q2R x)) by exact Hp.
      apply sqrt_lt_1_alt. split; [Lra.nra | exact H].
  - intro H.
    destruct (Qlt_le_dec x 0) as [Hn|Hp]; [now left | right].
    apply Rlt_Qlt. rewrite Hsq, Q2R_mult.
    apply Qle_Rle in Hp.
    rewrite <- (sqrt_sqrt s Hs). Lra.nra.
Qed.

Lemma np_abs_gt_exceeds (z : complex) (c : pyfloat) :
  np_abs_gt z c = true <-> exceeds (modulus z) c.
Proof.
  destruct c as [x| | |]; simpl.
  - apply np_abs_gt_Fin.
  - split; [discriminate | contradiction].
  - split; auto.
  - split; [discriminate | contradiction].
Qed.

(** A root the check rejects has a modulus of at most the bound. *)
Lemma np_abs_gt_false_modulus (z : complex) (x : Q) :
  np_abs_gt z (Fin x) = false <-> (modulus z <= Q2R x)%R.
Proof.
  split.
  - intro H. apply Rnot_lt_le. intro Hlt.
    apply np_abs_gt_Fin in Hlt. congruence.
  - intro H. destruct (np_abs_gt z (Fin x)) eqn:E; [|reflexivity].
    apply np_abs_gt_Fin in E. Lra.lra.
Qed.

Lemma passes_root_checks_forall (self : HyndmanKhandakar) (m : ARIMAResults) :
  passes_root_checks self m = true <->
  forall z, In z (arroots m) \/ In z (maroots m) ->
            np_abs_gt z (snd (conditions self)) = true.
Proof.
  unfold passes_root_checks, all_abs_gt.
  rewrite andb_true_iff, !forallb_forall. split.
  - intros [Ha Hm] z [H|H]; auto.
  - intro H. split; intros z Hz; apply H; auto.
Qed.

Lemma roots_invariant (cs : list Candidate) (self : HyndmanKhandakar) :
  (forall m, model self = Some m -> passes_root_checks self m = true) ->
  forall m, model (snd (seed_phase cs self)) = Some m ->
            passes_root_checks self m = true.
Proof.
  intro H0.
  apply (seed_phase_invariant
           (fun s => conditions s = conditions self /\
                     forall m, model s = Some m ->
                               passes_root_checks self m = true)).
  - intros s c m a _ (Hc & _) _ _ _ Hpass.
    pose proof (set_incumbent_fields s m (fst c) (snd c) a) as F.
    simpl in F. destruct F as (_ & _ & F3 & _ & _ & _ & _ & _ & F9 & _).
    rewrite F3, F9. split; [exact Hc|].
    intros m' Hm'. inversion Hm'; subst m'.
    unfold passes_root_checks in *. now rewrite <- Hc.
  - split; [reflexivity | exact H0].
Qed.

(** C6.  On an object as constructed, after any run of evaluations and
    after [find], every AR root and every MA root of the incumbent's model
    has a modulus strictly greater than [conditions[1]].  One evaluation
    replaces the incumbent only with a candidate whose AICc is strictly
    below the incumbent's and whose AR and MA roots all have a modulus
    strictly greater than [conditions[1]]; a candidate with an AICc below
    the incumbent's and a root whose modulus does not exceed
    [conditions[1]] leaves the object as it was. *)
Theorem incumbent_roots_pass (self : HyndmanKhandakar) :
  (forall ts0 alpha0 conditions0 full_search0 verbose0,
      __init__ ts0 alpha0 conditions0 full_search0 verbose0 = Ok self ->
      (forall cs m z,
          model (snd (seed_phase cs self)) = Some m ->
          In z (arroots m) \/ In z (maroots m) ->
          exceeds (modulus z) (snd conditions0))
      /\
      (forall m z,
          model (snd (find self)) = Some m ->
          In z (arroots m) \/ In z (maroots m) ->
          exceeds (modulus z) (snd conditions0)))
  /\
  (forall o trend,
      snd (_fit o trend self) <> self ->
      exists m a,
        ARIMA_fit (ts self) o trend (verbose self) = Ok m
        /\ _correct_aic self o trend (aic m) = Ok a
        /\ flt a (aicc self) = true
        /\ (forall z, In z (arroots m) \/ In z (maroots m) ->
                      exceeds (modulus z) (snd (conditions self)))
        /\ snd (_fit o trend self) = set_incumbent self m o trend a)
  /\
  (forall o trend m a z,
      ARIMA_fit (ts self) o trend (verbose self) = Ok m ->
      _correct_aic self o trend (aic m) = Ok a ->
      flt a (aicc self) = true ->
      In z (arroots m) \/ In z (maroots m) ->
      ~ exceeds (modulus z) (snd (conditions self)) ->
      _fit o trend self = (Ok tt, self)).
Proof.
  split; [|split].
  - intros ts0 alpha0 conditions0 full_search0 verbose0 Hinit.
    apply __init___fresh in Hinit.
    assert (Hrun : forall cs m z,
               model (snd (seed_phase cs self)) = Some m ->
               In z (arroots m) \/ In z (maroots m) ->
               exceeds (modulus z) (snd conditions0)).
    { intros cs m z Hm Hz.
      assert (Hc : conditions self = conditions0) by (subst self; reflexivity).
      rewrite <- Hc. apply np_abs_gt_exceeds.
      apply (proj1 (passes_root_checks_forall self m)); [|exact Hz].
      apply (roots_invariant cs self); [|exact Hm].
      subst self. intros m' Hm'. discriminate Hm'. }
    split; [exact Hrun|].
    intros m z Hm Hz.
    destruct (find_state_fresh self) as (cs & Hcs);
      [subst self; reflexivity|].
    rewrite Hcs in Hm. exact (Hrun cs m z Hm Hz).
  - intros o trend Hchange. rewrite _fit_spec in *.
    destruct (ARIMA_fit (ts self) o trend (verbose self)) as [m|e] eqn:Ef;
      [|exfalso; apply Hchange; reflexivity].
    destruct (_correct_aic self o trend (aic m)) as [a|e] eqn:Ec;
      [|exfalso; apply Hchange; reflexivity].
    exists m, a. unfold after_evaluation in *. cbn [fst snd] in *.
    destruct (flt a (aicc self)) eqn:El;
      [|exfalso; apply Hchange; reflexivity].
    destruct (passes_root_checks self m) eqn:Ep;
      [|exfalso; apply Hchange; reflexivity].
    rewrite passes_root_checks_forall in Ep.
    repeat split; try assumption; try reflexivity.
    intros z Hz. apply np_abs_gt_exceeds. exact (Ep z Hz).
  - intros o trend m a z Hfit Hc Hlt Hz Hbad.
    rewrite _fit_spec, Hfit, Hc. unfold after_evaluation.
    destruct (passes_root_checks self m) eqn:Ep.
    + rewrite passes_root_checks_forall in Ep.
      exfalso. apply Hbad. apply np_abs_gt_exceeds. exact (Ep z Hz).
    + rewrite andb_false_r. reflexivity.
Qed.

End Incumbent.

Lemma incumbent_roots_pass_witness :
  exceeds (modulus root_far) (snd default_conditions).
Proof.
  refine (proj1 (proj1
            (@incumbent_roots_pass sm_stationary
               (fresh (series_of 100) default_alpha default_conditions false 0))
            (series_of 100) default_alpha default_conditions false 0 eq_refl)
            [((PyInt 2, PyInt 0, PyInt 1), "c"%string)]
            (mkResults (Fin 280) [root_far; root_far] [root_far]) root_far
            eq_refl _).
  left. left. reflexivity.
Defined.

(** ** The AICc of the incumbent *)

Section IncumbentAICc.

Context {sm : Statsmodels}.

Lemma seed_phase_aicc_number (cs : list Candidate) (self : HyndmanKhandakar) :
  is_nan (aicc self) = false ->
  is_nan (aicc (snd (seed_phase cs self))) = false.
Proof.
  apply (seed_phase_invariant (fun s => is_nan (aicc s) = false)).
  intros s c m a _ _ _ _ Hlt _.
  pose proof (set_incumbent_fields s m (fst c) (snd c) a) as F.
  simpl in F. destruct F as (_ & _ & _ & _ & _ & _ & _ & _ & _ & F10 & _).
  rewrite F10. exact (proj1 (flt_not_nan _ _ Hlt)).
Qed.

Lemma seed_phase_monotone (cs : list Candidate) (self : HyndmanKhandakar) :
  is_nan (aicc self) = false ->
  fle (aicc (snd (seed_phase cs self))) (aicc self) = true.
Proof.
  intro Hnum.
  apply (seed_phase_invariant (fun s => fle (aicc s) (aicc self) = true)).
  - intros s c m a _ Hle _ _ Hlt _.
    pose proof (set_incumbent_fields s m (fst c) (snd c) a) as F.
    simpl in F. destruct F as (_ & _ & _ & _ & _ & _ & _ & _ & _ & F10 & _).
    rewrite F10. exact (flt_fle_trans _ _ _ Hlt Hle).
  - apply fle_refl. exact Hnum.
Qed.

(** C10.  One evaluation leaves the incumbent's AICc as it is or puts a
    strictly smaller one in its place.  Along a run on an object as
    constructed the incumbent's AICc never increases: after more
    candidates it is at most what it was after fewer.  A candidate whose
    AICc equals the incumbent's leaves the object unchanged: the first
    evaluated stays. *)
Theorem incumbent_aicc_monotone (self : HyndmanKhandakar) :
  (forall o trend,
      aicc (snd (_fit o trend self)) = aicc self
      \/ flt (aicc (snd (_fit o trend self))) (aicc self) = true)
  /\
  (forall ts0 alpha0 conditions0 full_search0 verbose0 cs1 cs2,
      __init__ ts0 alpha0 conditions0 full_search0 verbose0 = Ok self ->
      fle (aicc (snd (seed_phase (cs1 ++ cs2) self)))
          (aicc (snd (seed_phase cs1 self))) = true)
  /\
  (forall o trend m a,
      ARIMA_fit (ts self) o trend (verbose self) = Ok m ->
      _correct_aic self o trend (aic m) = Ok a ->
      feq a (aicc self) = true ->
      _fit o trend self = (Ok tt, self)).
Proof.
  split; [|split].
  - intros o trend. rewrite _fit_spec.
    destruct (ARIMA_fit (ts self) o trend (verbose self)) as [m|e];
      [|now left].
    destruct (_correct_aic self o trend (aic m)) as [a|e]; [|now left].
    unfold after_evaluation. cbn [fst snd].
    destruct (flt a (aicc self)) eqn:El; [|now left].
    destruct (passes_root_checks self m); [|now left].
    right. simpl.
    pose proof (set_incumbent_fields self m o trend a) as F.
    simpl in F. destruct F as (_ & _ & _ & _ & _ & _ & _ & _ & _ & F10 & _).
    rewrite F10. exact El.
  - intros ts0 alpha0 conditions0 full_search0 verbose0 cs1 cs2 Hinit.
    apply __init___fresh in Hinit.
    assert (H0 : is_nan (aicc self) = false) by (subst self; reflexivity).
    rewrite seed_phase_app.
    pose proof (seed_phase_aicc_number cs1 self H0) as H1.
    destruct (seed_phase cs1 self) as [[[]|e] s1]; simpl in H1 |- *.
    + apply seed_phase_monotone. exact H1.
    + apply fle_refl. exact H1.
  - intros o trend m a Hfit Hc Heq.
    rewrite _fit_spec, Hfit, Hc. unfold after_evaluation.
    rewrite (feq_not_flt _ _ Heq). reflexivity.
Qed.

Lemma checked_aiccs_cons (self : HyndmanKhandakar) (c : Candidate)
    (cs : list Candidate) :
  checked_aiccs self (c :: cs) =
  match ARIMA_fit (ts self) (fst c) (snd c) (verbose self) with
  | Raise e => if is_ValueError e then checked_aiccs self cs else []
  | Ok m =>
      match _correct_aic self (fst c) (snd c) (aic m) with
      | Raise e => if is_ValueError e then checked_aiccs self cs else []
      | Ok a =>
          if passes_root_checks self m && negb (is_nan a)
          then a :: checked_aiccs self cs
          else checked_aiccs self cs
      end
  end.
Proof.
  unfold checked_aiccs. cbn [evaluations].
  destruct (ARIMA_fit (ts self) (fst c) (snd c) (verbose self)) as [m|e].
  - destruct (_correct_aic self (fst c) (snd c) (aic m)) as [a|e].
    + cbn [filter fst snd].
      destruct (passes_root_checks self m && negb (is_nan a)); reflexivity.
    + destruct (is_ValueError e); reflexivity.
  - destruct (is_ValueError e); reflexivity.
Qed.

(** The invariant of the incumbent against the AICc values [seen] of the
    checked candidates so far. *)
Lemma minimum_invariant (cs : list Candidate) :
  forall (self : HyndmanKhandakar) (seen : list pyfloat),
    is_nan (aicc self) = false ->
    (forall y, In y seen -> fle (aicc self) y = true) ->
    (seen = [] /\ is_sentinel self) \/ In (aicc self) seen ->
    let s' := snd (seed_phase cs self) in
    let seen' := seen ++ checked_aiccs self cs in
    (forall y, In y seen' -> fle (aicc s') y = true)
    /\ ((seen' = [] /\ is_sentinel s') \/ In (aicc s') seen').
Proof.
  induction cs as [|c cs IH]; intros self seen Hnum Hlow Hin.
  - simpl. unfold checked_aiccs. simpl. rewrite app_nil_r. auto.
  - cbv zeta. rewrite seed_phase_cons, checked_aiccs_cons.
    destruct (ARIMA_fit (ts self) (fst c) (snd c) (verbose self)) as [m|e].
    2:{ destruct (is_ValueError e).
        - exact (IH self seen Hnum Hlow Hin).
        - simpl. rewrite app_nil_r. auto. }
    destruct (_correct_aic self (fst c) (snd c) (aic m)) as [a|e].
    2:{ destruct (is_ValueError e).
        - exact (IH self seen Hnum Hlow Hin).
        - simpl. rewrite app_nil_r. auto. }
    pose proof (after_evaluation_frame self c m a) as F.
    cbv zeta in F. destruct F as (Fts & Fc & Fv & _).
    assert (Hframe : checked_aiccs (after_evaluation self c m a) cs
                     = checked_aiccs self cs)
      by (apply checked_aiccs_frame; assumption).
    unfold after_evaluation in *.
    destruct (passes_root_checks self m) eqn:Ep.
    + destruct (is_nan a) eqn:En.
      * (* an AICc that is [nan] is below nothing *)
        assert (El : flt a (aicc self) = false)
          by (destruct a; try discriminate; reflexivity).
        rewrite El. cbn [andb negb].
        exact (IH self seen Hnum Hlow Hin).
      * cbn [andb negb].
        destruct (flt a (aicc self)) eqn:El; cbn [andb] in *.
        -- (* accepted *)
           pose proof (set_incumbent_fields self m (fst c) (snd c) a) as G.
           simpl in G.
           destruct G as (_ & _ & _ & _ & _ & _ & _ & _ & _ & G10 & _).
           specialize (IH (set_incumbent self m (fst c) (snd c) a)
                          (seen ++ [a])).
           cbv zeta in IH. rewrite Hframe, G10, <- app_assoc in IH.
           apply IH.
           ++ exact En.
           ++ intros y Hy. apply in_app_or in Hy. destruct Hy as [Hy|[Hy|[]]].
              ** exact (flt_fle_trans _ _ _ El (Hlow y Hy)).
              ** subst y. apply fle_refl. exact En.
           ++ right. apply in_or_app. right. now left.
        -- (* not below the incumbent *)
           specialize (IH self (seen ++ [a])).
           cbv zeta in IH. rewrite <- app_assoc in IH.
           apply IH.
           ++ exact Hnum.
           ++ intros y Hy. apply in_app_or in Hy. destruct Hy as [Hy|[Hy|[]]].
              ** exact (Hlow y Hy).
              ** subst y. apply not_flt_fle; assumption.
           ++ right. apply in_or_app.
              destruct Hin as [[Hnil (_ & Hinf & _)]|Hin].
              ** right. left.
                 assert (Hle : fle (aicc self) a = true)
                   by (apply not_flt_fle; assumption).
                 rewrite Hinf in Hle |- *.
                 exact (fle_PInf_inv a Hle).
              ** now left.
    + rewrite andb_false_r. cbn [andb].
      exact (IH self seen Hnum Hlow Hin).
Qed.

(** C5.  On an object as constructed, after the evaluation of any
    candidates [cs] (every point of a run of [find] is such a point):
    while no evaluated candidate has satisfied the stability/invertibility
    check, the incumbent is the sentinel, no model and AICc [inf]; from
    then on the incumbent's AICc is the minimum of the AICc values of the
    evaluated candidates that satisfied the check.  The AICc values are
    numbers: an AICc that came out [nan] is none. *)
Theorem incumbent_aicc_is_minimum
    (ts0 : Series) (alpha0 : pyfloat) (conditions0 : Z * pyfloat)
    (full_search0 : bool) (verbose0 : Z) (self : HyndmanKhandakar)
    (cs : list Candidate) :
  __init__ ts0 alpha0 conditions0 full_search0 verbose0 = Ok self ->
  let s' := snd (seed_phase cs self) in
  (checked_aiccs self cs = [] -> is_sentinel s')
  /\ (checked_aiccs self cs <> [] ->
      is_minimum (aicc s') (checked_aiccs self cs))
  /\ (exists run, snd (find self) = snd (seed_phase run self)).
Proof.
  intros Hinit s'. apply __init___fresh in Hinit.
  assert (Hsent : is_sentinel self) by (subst self; repeat split).
  assert (Hnum : is_nan (aicc self) = false) by (subst self; reflexivity).
  pose proof (minimum_invariant cs self [] Hnum
                ltac:(intros y []) (or_introl (conj eq_refl Hsent))) as H.
  cbv zeta in H. rewrite app_nil_l in H. fold s' in H.
  destruct H as (Hlow & Hin).
  split; [|split].
  - intro Hnil. rewrite Hnil in Hin.
    destruct Hin as [[_ Hs]|[]]. exact Hs.
  - intro Hne. split; [|exact Hlow].
    destruct Hin as [[Hnil _]|Hin]; [contradiction | exact Hin].
  - apply find_state_fresh. subst self. reflexivity.
Qed.

End IncumbentAICc.

Lemma incumbent_aicc_monotone_witness :
  let self :=
    snd (@_fit sm_flat (PyInt 1, PyInt 0, PyInt 0) "c"
           (fresh (series_of 100) default_alpha default_conditions false 0)) in
  @_fit sm_flat (PyInt 0, PyInt 0, PyInt 1) "c" self = (Ok tt, self).
Proof.
  intro self.
  refine (proj2 (proj2 (@incumbent_aicc_monotone sm_flat self))
            (PyInt 0, PyInt 0, PyInt 1) "c"%string (mkResults (Fin 0) [] [])
            (Fin (0 + inject_Z 24 / inject_Z 96)) eq_refl eq_refl eq_refl).
Defined.

Lemma incumbent_aicc_is_minimum_witness :
  let self := fresh (series_of 100) default_alpha default_conditions false 0 in
  let cs := seed_orders (PyInt 0)
            ++ [((NpInt 1, PyInt 0, NpInt 1), "c"%string);
                ((NpInt 2, PyInt 0, NpInt 1), "c"%string)] in
  is_minimum (aicc (snd (@seed_phase sm_stationary cs self)))
             (@checked_aiccs sm_stationary self cs).
Proof.
  intros self cs.
  refine (proj1 (proj2
            (@incumbent_aicc_is_minimum sm_stationary (series_of 100)
               default_alpha default_conditions false 0 self cs eq_refl)) _).
  vm_compute. discriminate.
Defined.

(** ** What a run writes and what it keeps *)

Section RunFrame.

Context {sm : Statsmodels}.

(** A run of evaluations writes the incumbent only. *)
Lemma seed_phase_frame_all (cs : list Candidate) (self : HyndmanKhandakar) :
  let s' := snd (seed_phase cs self) in
  ts s' = ts self /\ alpha s' = alpha self /\
  conditions s' = conditions self /\ full_search s' = full_search self /\
  verbose s' = verbose self /\ p_values s' = p_values self /\
  d s' = d self /\ warnings s' = warnings self.
Proof.
  apply (seed_phase_invariant
           (fun s' =>
              ts s' = ts self /\ alpha s' = alpha self /\
              conditions s' = conditions self /\
              full_search s' = full_search self /\
              verbose s' = verbose self /\ p_values s' = p_values self /\
              d s' = d self /\ warnings s' = warnings self)).
  - intros s c m a _ (H1 & H2 & H3 & H4 & H5 & H6 & H7 & H8) _ _ _ _.
    pose proof (set_incumbent_fields s m (fst c) (snd c) a) as F.
    simpl in F.
    destruct F as (F1 & F2 & F3 & F4 & F5 & F6 & F7 & F8 & _).
    rewrite F1, F2, F3, F4, F5, F6, F7, F8. repeat split; assumption.
  - repeat split.
Qed.

(** One call of [_fit] either leaves the object exactly as it was - so
    whenever it raises, whatever the exception - or returns with the
    fitted candidate as the new incumbent: the model is the fit, the
    order and trend are the candidate's and the AICc is the corrected AIC
    of the fit, all replaced together; that happens only when this AICc
    is strictly below the stored one and the fit passes both root checks.
    It never touches the series, the configuration, [p_values], [d] or
    the warnings. *)
Theorem _fit_is_all_or_nothing (o : Order) (trend : string)
    (self : HyndmanKhandakar) :
  (_fit o trend self = (Ok tt, self)
   \/ (exists e, _fit o trend self = (Raise e, self))
   \/ (exists m a,
         ARIMA_fit (ts self) o trend (verbose self) = Ok m
         /\ _correct_aic self o trend (aic m) = Ok a
         /\ flt a (aicc self) = true
         /\ passes_root_checks self m = true
         /\ _fit o trend self = (Ok tt, set_incumbent self m o trend a)
         /\ model (set_incumbent self m o trend a) = Some m
         /\ aicc (set_incumbent self m o trend a) = a
         /\ order (set_incumbent self m o trend a)
            = mkOrder (fst (fst o)) (snd (fst o)) (snd o) trend))
  /\
  (let s' := snd (_fit o trend self) in
   ts s' = ts self /\ alpha s' = alpha self /\
   conditions s' = conditions self /\ full_search s' = full_search self /\
   verbose s' = verbose self /\ p_values s' = p_values self /\
   d s' = d self /\ warnings s' = warnings self).
Proof.
  rewrite _fit_spec.
  destruct (ARIMA_fit (ts self) o trend (verbose self)) as [m|e] eqn:Ef.
  2:{ split; [right; left; now exists e | repeat split]. }
  destruct (_correct_aic self o trend (aic m)) as [a|e] eqn:Ec.
  2:{ split; [right; left; now exists e | repeat split]. }
  unfold after_evaluation. cbn [fst snd].
  destruct (flt a (aicc self)) eqn:El;
    [|split; [now left | repeat split]].
  destruct (passes_root_checks self m) eqn:Ep;
    [|split; [now left | repeat split]].
  cbn [andb].
  pose proof (set_incumbent_fields self m o trend a) as F. simpl in F.
  destruct F as (F1 & F2 & F3 & F4 & F5 & F6 & F7 & F8 & F9 & F10 & F11).
  split.
  - right. right. exists m, a. repeat split; assumption.
  - repeat split; assumption.
Qed.

(** [find] never writes the series or the configuration: whatever the
    object and however the run ends, [ts], [alpha], [conditions],
    [full_search] and [verbose] are what they were. *)
Theorem find_keeps_inputs (self : HyndmanKhandakar) :
  let s' := snd (find self) in
  ts s' = ts self /\ alpha s' = alpha self /\
  conditions s' = conditions self /\ full_search s' = full_search self /\
  verbose s' = verbose self.
Proof.
  destruct (find_state self) as (cs & Hcs). cbv zeta. rewrite Hcs.
  pose proof (seed_phase_frame_all cs (snd (_get_differencing_degree self)))
    as F.
  pose proof (_get_differencing_degree_frame self) as G.
  cbv zeta in F, G.
  destruct F as (F1 & F2 & F3 & F4 & F5 & _).
  destruct G as (G1 & G2 & G3 & G4 & G5 & _).
  rewrite F1, F2, F3, F4, F5. repeat split; assumption.
Qed.

(** [find] takes the degree of differencing from [order["d"]], never from
    the attribute [d] the differencing phase works on: on every object,
    whatever its attribute [d], every order [find] fits has the degree
    that [order["d"]] held when [find] was called, and [order["d"]] holds
    the same value afterwards. *)
Theorem find_uses_stored_degree (self : HyndmanKhandakar) :
  exists cs,
    Forall (fun c => degree_of c = key_d (order self)) cs
    /\ snd (find self)
       = snd (seed_phase cs (snd (_get_differencing_degree self)))
    /\ key_d (order (snd (find self))) = key_d (order self).
Proof.
  pose proof (find_runs_fits self) as Hfind.
  pose proof (_get_differencing_degree_frame self) as G. cbv zeta in G.
  destruct G as (_ & _ & _ & _ & _ & _ & Go & _).
  destruct (_get_differencing_degree self) as [[[]|e] s1]; cbn [snd] in *.
  - destruct Hfind as (cs & Hdeg & Hfind). rewrite Go in Hdeg.
    exists cs. split; [exact Hdeg|]. rewrite Hfind. split; [reflexivity|].
    apply (seed_phase_invariant
             (fun s => key_d (order s) = key_d (order self))).
    + intros s c m a Hin _ _ _ _ _.
      pose proof (set_incumbent_fields s m (fst c) (snd c) a) as F.
      simpl in F.
      destruct F as (_ & _ & _ & _ & _ & _ & _ & _ & _ & _ & F11).
      rewrite F11. simpl.
      rewrite Forall_forall in Hdeg. exact (Hdeg c Hin).
    + now rewrite Go.
  - exists []. rewrite Hfind. cbn [snd]. repeat split.
    + constructor.
    + now rewrite Go.
Qed.

(** [find] never makes the stored AICc worse: on every object whose AICc
    is a number, a second run on the same object included, the AICc after
    [find] is at most the AICc before. *)
Theorem find_never_raises_aicc (self : HyndmanKhandakar) :
  is_nan (aicc self) = false ->
  fle (aicc (snd (find self))) (aicc self) = true.
Proof.
  intro Hnum. destruct (find_state self) as (cs & Hcs). rewrite Hcs.
  pose proof (_get_differencing_degree_frame self) as G. cbv zeta in G.
  destruct G as (_ & _ & _ & _ & _ & _ & _ & Ga).
  rewrite <- Ga. apply seed_phase_monotone. now rewrite Ga.
Qed.

End RunFrame.

Lemma find_never_raises_aicc_witness :
  let self :=
    snd (@find sm_stationary
           (fresh (series_of 100) default_alpha default_conditions false 0)) in
  fle (aicc (snd (@find sm_stationary self))) (aicc self) = true.
Proof.
  intro self.
  exact (@find_never_raises_aicc sm_stationary self eq_refl).
Defined.

(** ** The stored model, order and AICc belong together *)

Section IncumbentConsistency.

Context {sm : Statsmodels}.

Lemma flt_below_inf (a b : pyfloat) : flt a b = true -> flt a PInf = true.
Proof. destruct a, b; simpl; intro H; try discriminate; reflexivity. Qed.

Lemma seed_phase_consistent (cs : list Candidate) (self : HyndmanKhandakar) :
  is_sentinel self -> consistent_incumbent self (snd (seed_phase cs self)).
Proof.
  intro Hsent.
  apply (proj2 (A := ts (snd (seed_phase cs self)) = ts self
                     /\ verbose (snd (seed_phase cs self)) = verbose self
                     /\ conditions (snd (seed_phase cs self))
                        = conditions self)).
  apply (seed_phase_invariant
           (fun s => (ts s = ts self /\ verbose s = verbose self
                      /\ conditions s = conditions self)
                     /\ consistent_incumbent self s)).
  - intros s c m a _ ((Hts & Hv & Hc) & _) Hfit Hcorr Hlt Hpass.
    pose proof (set_incumbent_fields s m (fst c) (snd c) a) as F.
    simpl in F.
    destruct F as (F1 & _ & F3 & _ & F5 & _ & _ & _ & F9 & F10 & F11).
    split; [rewrite F1, F3, F5; auto|].
    right. exists (fst c), (snd c), m.
    rewrite F9, F10, F11, <- Hts, <- Hv.
    rewrite <- (_correct_aic_frame s self) by exact Hts.
    unfold passes_root_checks in *. rewrite <- Hc.
    repeat split; try assumption. exact (flt_below_inf _ _ Hlt).
  - split; [auto | now left].
Qed.

(** On an object as constructed, after any run of evaluations and after
    [find], the stored model, order, trend and AICc belong to one and the
    same candidate: either nothing was accepted and the object is still
    the sentinel (no model, order (0,0,0) without constant, AICc [inf]),
    or the model is the fit of the stored order and trend, the AICc is the
    corrected AIC of that fit and is below [inf], and the fit passes both
    root checks.  In particular there is no model exactly when the AICc is
    [inf]. *)
Theorem incumbent_fields_belong_together
    (ts0 : Series) (alpha0 : pyfloat) (conditions0 : Z * pyfloat)
    (full_search0 : bool) (verbose0 : Z) (self : HyndmanKhandakar) :
  __init__ ts0 alpha0 conditions0 full_search0 verbose0 = Ok self ->
  (forall cs, consistent_incumbent self (snd (seed_phase cs self)))
  /\ consistent_incumbent self (snd (find self))
  /\ (model (snd (find self)) = None <-> aicc (snd (find self)) = PInf).
Proof.
  intro Hinit. apply __init___fresh in Hinit.
  assert (Hsent : is_sentinel self) by (subst self; repeat split).
  assert (Hd : d self = None) by (subst self; reflexivity).
  assert (Hrun : forall cs,
             consistent_incumbent self (snd (seed_phase cs self)))
    by (intro cs; apply seed_phase_consistent; exact Hsent).
  split; [exact Hrun|].
  destruct (find_state_fresh self Hd) as (cs & Hcs). rewrite Hcs.
  split; [apply Hrun|].
  destruct (Hrun cs) as [(Hm & Ha & _)|(o & trend & m & Hm & _ & _ & _ & _ & Hlt)].
  - rewrite Hm, Ha. split; reflexivity.
  - rewrite Hm. split; [discriminate|].
    intro Ha. rewrite Ha in Hlt. discriminate Hlt.
Qed.

End IncumbentConsistency.

Lemma incumbent_fields_belong_together_witness :
  let self := fresh (series_of 100) default_alpha default_conditions false 0 in
  @consistent_incumbent sm_stationary self (snd (@find sm_stationary self)).
Proof.
  intro self.
  exact (proj1 (proj2
           (@incumbent_fields_belong_together sm_stationary (series_of 100)
              default_alpha default_conditions false 0 self eq_refl))).
Defined.

(** ** The differencing estimator on an object with the attribute [d] *)

Section Estimator.

Context {sm : Statsmodels}.

Lemma dict_get_set_same {V : Type} (key : Z) (v : V) (dict : list (Z * V)) :
  dict_get key (dict_set key v dict) = Some v.
Proof.
  induction dict as [|[k' v'] rest IH]; simpl.
  - now rewrite Z.eqb_refl.
  - destruct (k' =? key) eqn:E; simpl; rewrite E; [reflexivity | exact IH].
Qed.

Lemma dict_get_set_other {V : Type} (key key' : Z) (v : V)
    (dict : list (Z * V)) :
  key <> key' -> dict_get key' (dict_set key v dict) = dict_get key' dict.
Proof.
  intro Hne. induction dict as [|[k' v'] rest IH]; simpl.
  - apply Z.eqb_neq in Hne. now rewrite Hne.
  - destruct (k' =? key) eqn:E; simpl.
    + apply Z.eqb_eq in E. subst k'.
      apply Z.eqb_neq in Hne. now rewrite Hne.
    + destruct (k' =? key'); [reflexivity | exact IH].
Qed.

Lemma _get_differencing_degree_unfold (self : HyndmanKhandakar) :
  _get_differencing_degree self = _test recursion_limit (ts self) self.
Proof.
  unfold _get_differencing_degree, bind, get.
  destruct (verbose self =? 0); reflexivity.
Qed.

Lemma tests_return (ts0 : Series) :
  test_p_values ts0 <> None ->
  exists p_adf p_kpss,
    adfuller ts0 = Ok p_adf /\ kpss ts0 = Ok p_kpss
    /\ test_p_values ts0 = Some (p_adf, p_kpss).
Proof.
  unfold test_p_values. intro H.
  destruct (adfuller ts0) as [p_adf|e]; [|contradiction].
  destruct (kpss ts0) as [p_kpss|e]; [|contradiction].
  now exists p_adf, p_kpss.
Qed.

(** The whole course of [_test] from the degree [k]. *)
Lemma _test_run (depth : nat) :
  (forall t, test_p_values t <> None) ->
  forall (ts0 : Series) (self : HyndmanKhandakar) (k : Z),
    d self = Some (PyInt k) -> 0 <= k <= 2 ->
    (Z.to_nat (3 - k) <= depth)%nat ->
    exists k',
      fst (_test depth ts0 self) = Ok tt
      /\ d (snd (_test depth ts0 self)) = Some (PyInt k')
      /\ k <= k' <= 2
      /\ (forall j : nat,
             Z.of_nat j < k' - k ->
             needs_differencing (alpha self) (differenced j ts0) = true
             /\ dict_get (k + Z.of_nat j) (p_values (snd (_test depth ts0 self)))
                = test_p_values (differenced j ts0))
      /\ (k' = 2
          \/ needs_differencing (alpha self)
               (differenced (Z.to_nat (k' - k)) ts0) = false)
      /\ (forall i, i < k \/ k' <= i ->
             dict_get i (p_values (snd (_test depth ts0 self)))
             = dict_get i (p_values self))
      /\ warnings (snd (_test depth ts0 self))
         = warnings self
           ++ hard_stop_warning
                ((k' =? 2)
                 && needs_differencing (alpha self)
                      (differenced (Z.to_nat (2 - k)) ts0)
                 && negb (verbose self =? 0)).
Proof.
  intro Htotal.
  induction depth as [|depth IH]; intros ts0 self k Hd Hk Hdepth; [lia|].
  rewrite (_test_step depth ts0 self (PyInt k) Hd).
  destruct (tests_return ts0 (Htotal ts0)) as (p_adf & p_kpss & Ha & Hp & Ht).
  rewrite Ha, Hp.
  assert (Hneed : needs_differencing (alpha self) ts0
                  = flt p_kpss (alpha self) || fge p_adf (alpha self))
    by (unfold needs_differencing; now rewrite Ht).
  rewrite <- Hneed.
  destruct (needs_differencing (alpha self) ts0) eqn:En.
  - unfold int_eqb. cbn [ival].
    destruct (k =? 2) eqn:E2.
    + (* the hard stop *)
      apply Z.eqb_eq in E2. subst k. exists 2.
      assert (Hw : warnings
                     (if negb (verbose self =? 0)
                      then add_warning self failed_to_stationarize else self)
                   = warnings self
                     ++ hard_stop_warning (negb (verbose self =? 0)))
        by (destruct (negb (verbose self =? 0)); simpl;
            [reflexivity | now rewrite app_nil_r]).
      cbn [fst snd]. repeat split; try lia.
      * destruct (negb (verbose self =? 0)); exact Hd.
      * intros i _. destruct (negb (verbose self =? 0)); reflexivity.
      * rewrite Hw. simpl. rewrite En. reflexivity.
    + (* one more difference *)
      apply Z.eqb_neq in E2. cbn [int_add int_op].
      set (s1 := set_d
                   (set_p_values self
                      (dict_set k (p_adf, p_kpss) (p_values self)))
                   (PyInt (k + 1))).
      destruct (IH (diff_dropna ts0) s1 (k + 1) eq_refl ltac:(lia)
                  ltac:(lia))
        as (k' & Hr & Hd' & Hk' & Hj & Hstop & Hkeep & Hw).
      change (alpha s1) with (alpha self) in *.
      change (verbose s1) with (verbose self) in *.
      change (warnings s1) with (warnings self) in *.
      change (p_values s1)
        with (dict_set k (p_adf, p_kpss) (p_values self)) in *.
      exists k'.
      split; [exact Hr|]. split; [exact Hd'|]. split; [lia|].
      split; [|split; [|split]].
      * intros [|j] Hlt.
        -- split; [exact En|].
           rewrite Z.add_0_r, Hkeep by lia.
           rewrite dict_get_set_same. symmetry. exact Ht.
        -- replace (k + Z.of_nat (S j)) with (k + 1 + Z.of_nat j) by lia.
           apply (Hj j). lia.
      * destruct Hstop as [Hstop|Hstop]; [now left | right].
        replace (Z.to_nat (k' - k)) with (S (Z.to_nat (k' - (k + 1))))
          by lia.
        exact Hstop.
      * intros i Hi. rewrite Hkeep by lia.
        apply dict_get_set_other. lia.
      * rewrite Hw.
        replace (Z.to_nat (2 - k)) with (S (Z.to_nat (2 - (k + 1)))) by lia.
        reflexivity.
  - (* the tests are content *)
    exists k. cbn [fst snd].
    split; [reflexivity|]. split; [exact Hd|]. split; [lia|].
    split; [|split; [|split]].
    + intros j Hlt. lia.
    + right. now rewrite Z.sub_diag.
    + intros i _. reflexivity.
    + assert (Hno : (k =? 2)
                    && needs_differencing (alpha self)
                         (differenced (Z.to_nat (2 - k)) ts0) = false).
      { destruct (k =? 2) eqn:E2; [|reflexivity].
        apply Z.eqb_eq in E2. subst k. simpl. exact En. }
      rewrite Hno. simpl. now rewrite app_nil_r.
Qed.

End Estimator.

Section EstimatorProperties.

Context {sm : Statsmodels}.

Lemma recursion_limit_enough (k : Z) :
  0 <= k -> (Z.to_nat (3 - k) <= recursion_limit)%nat.
Proof.
  intro Hk.
  assert (H : (Z.to_nat (3 - k) <= 3)%nat) by lia.
  eapply Nat.le_trans; [exact H|].
  unfold recursion_limit. repeat constructor.
Qed.

(** Where the attribute [d] holds a degree [k] in 0..2 when the
    differencing phase starts and the two tests return on every series,
    the phase returns with [d] at the first degree [k' >= k] at which the
    decision rule no longer asks for differencing, or at 2: the rule asked
    for differencing at every degree from [k] up to [k'], the series being
    differenced once per degree, and [d] is never above 2. *)
Theorem estimator_stops_at_first_stationary_degree
    (self : HyndmanKhandakar) (k : Z) :
  d self = Some (PyInt k) -> 0 <= k <= 2 ->
  (forall t, test_p_values t <> None) ->
  exists k',
    fst (_get_differencing_degree self) = Ok tt
    /\ d (snd (_get_differencing_degree self)) = Some (PyInt k')
    /\ k <= k' <= 2
    /\ (forall j : nat,
           Z.of_nat j < k' - k ->
           needs_differencing (alpha self) (differenced j (ts self)) = true)
    /\ (k' = 2
        \/ needs_differencing (alpha self)
             (differenced (Z.to_nat (k' - k)) (ts self)) = false).
Proof.
  intros Hd Hk Htotal. rewrite _get_differencing_degree_unfold.
  destruct (_test_run recursion_limit Htotal (ts self) self k Hd Hk
              (recursion_limit_enough k ltac:(lia)))
    as (k' & Hr & Hd' & Hk' & Hj & Hstop & _ & _).
  exists k'. repeat split; try assumption; try lia.
  intros j Hlt. exact (proj1 (Hj j Hlt)).
Qed.

(** Under the same conditions [p_values] gets one entry per differencing
    step: the p-values (ADF, KPSS) of the series differenced [j] times
    stand under the key [k + j], for every step taken.  The entries of all
    other keys are left as they were; so the p-values of the last test,
    the one after which the phase stopped, are not recorded, at the hard
    stop at degree 2 either. *)
Theorem p_values_record_each_differencing_step
    (self : HyndmanKhandakar) (k : Z) :
  d self = Some (PyInt k) -> 0 <= k <= 2 ->
  (forall t, test_p_values t <> None) ->
  exists k',
    d (snd (_get_differencing_degree self)) = Some (PyInt k')
    /\ k <= k' <= 2
    /\ (forall j : nat,
           Z.of_nat j < k' - k ->
           dict_get (k + Z.of_nat j)
                    (p_values (snd (_get_differencing_degree self)))
           = test_p_values (differenced j (ts self)))
    /\ (forall i, i < k \/ k' <= i ->
           dict_get i (p_values (snd (_get_differencing_degree self)))
           = dict_get i (p_values self)).
Proof.
  intros Hd Hk Htotal. rewrite _get_differencing_degree_unfold.
  destruct (_test_run recursion_limit Htotal (ts self) self k Hd Hk
              (recursion_limit_enough k ltac:(lia)))
    as (k' & _ & Hd' & Hk' & Hj & _ & Hkeep & _).
  exists k'. repeat split; try assumption; try lia.
  intros j Hlt. exact (proj2 (Hj j Hlt)).
Qed.

(** On every object [_test] calls [warn] not at all or exactly once, for
    the hard-stop notice, and that only with [verbose] set and [d] at
    2. *)
Lemma _test_warnings (depth : nat) :
  forall (ts0 : Series) (self : HyndmanKhandakar),
    warnings (snd (_test depth ts0 self)) = warnings self
    \/ (warnings (snd (_test depth ts0 self))
        = warnings self ++ [failed_to_stationarize]
        /\ verbose self <> 0
        /\ exists v, d (snd (_test depth ts0 self)) = Some v /\ ival v = 2).
Proof.
  induction depth as [|depth IH]; intros ts0 self; [now left|].
  destruct (d self) as [v|] eqn:Hd.
  - rewrite (_test_step depth ts0 self v Hd).
    destruct (adfuller ts0) as [p_adf|e]; [|now left].
    destruct (kpss ts0) as [p_kpss|e]; [|now left].
    destruct (flt p_kpss (alpha self) || fge p_adf (alpha self));
      [|now left].
    destruct (int_eqb v (PyInt 2)) eqn:E2.
    + destruct (verbose self =? 0) eqn:Ev; cbn [negb fst snd]; [now left|].
      right. apply Z.eqb_neq in Ev. split; [reflexivity|].
      split; [exact Ev|]. exists v. split; [exact Hd|].
      unfold int_eqb in E2. simpl in E2. now apply Z.eqb_eq in E2.
    + match goal with
      | |- context [_test depth ?t ?s] => exact (IH t s)
      end.
  - rewrite (_test_without_d depth ts0 self Hd).
    destruct (adfuller ts0); [|now left].
    destruct (kpss ts0); [|now left].
    destruct (flt _ _ || fge _ _); now left.
Qed.

(** The class's own warning.  In a run of [find] the class calls [warn]
    at most once: not at all, or exactly once for the notice that
    differencing failed to stationarize the series, and that only when
    [verbose] is set and the attribute [d] has reached 2; with
    [verbose = 0] it never calls [warn].  Where [d] starts at a degree [k]
    in 0..2 and the tests return, the notice is issued exactly when
    [verbose] is set and the decision rule still asks for differencing at
    degree 2.  What numpy and statsmodels warn of in their own code, the
    [RuntimeWarning] of a division by zero among them, is outside this
    list. *)
Theorem find_warns_only_at_hard_stop (self : HyndmanKhandakar) :
  (warnings (snd (find self)) = warnings self
   \/ (warnings (snd (find self)) = warnings self ++ [failed_to_stationarize]
       /\ verbose self <> 0
       /\ exists v, d (snd (find self)) = Some v /\ ival v = 2))
  /\
  (forall k,
      d self = Some (PyInt k) -> 0 <= k <= 2 ->
      (forall t, test_p_values t <> None) ->
      exists k',
        d (snd (find self)) = Some (PyInt k')
        /\ warnings (snd (find self))
           = warnings self
             ++ hard_stop_warning
                  ((k' =? 2)
                   && needs_differencing (alpha self)
                        (differenced (Z.to_nat (2 - k)) (ts self))
                   && negb (verbose self =? 0))).
Proof.
  destruct (find_state self) as (cs & Hcs). rewrite Hcs.
  pose proof (seed_phase_frame_all cs (snd (_get_differencing_degree self)))
    as F. cbv zeta in F.
  destruct F as (_ & _ & _ & _ & _ & _ & Fd & Fw). rewrite Fd, Fw.
  rewrite _get_differencing_degree_unfold.
  split; [apply _test_warnings|].
  intros k Hd Hk Htotal.
  destruct (_test_run recursion_limit Htotal (ts self) self k Hd Hk
              (recursion_limit_enough k ltac:(lia)))
    as (k' & _ & Hd' & _ & _ & _ & _ & Hw).
  exists k'. split; assumption.
Qed.

End EstimatorProperties.

Lemma sm_once_tests_return :
  forall t : Series, @test_p_values sm_once t <> None.
Proof.
  intro t. unfold test_p_values. simpl.
  destruct (Nat.eqb (List.length t) 100); discriminate.
Qed.

Lemma sm_unit_root_tests_return :
  forall t : Series, @test_p_values sm_unit_root t <> None.
Proof. intro t. discriminate. Qed.

Lemma estimator_stops_at_first_stationary_degree_witness :
  let self :=
    set_d (fresh (series_of 100) default_alpha default_conditions false 0)
          (PyInt 0) in
  exists k',
    d (snd (@_get_differencing_degree sm_once self)) = Some (PyInt k')
    /\ 0 <= k' <= 2.
Proof.
  intro self.
  destruct (@estimator_stops_at_first_stationary_degree sm_once self 0
              eq_refl ltac:(lia) sm_once_tests_return)
    as (k' & _ & Hd & Hk & _).
  exists k'. split; assumption.
Defined.

Lemma p_values_record_each_differencing_step_witness :
  let self :=
    set_d (fresh (series_of 100) default_alpha default_conditions false 0)
          (PyInt 0) in
  exists k',
    d (snd (@_get_differencing_degree sm_once self)) = Some (PyInt k')
    /\ forall j : nat,
         Z.of_nat j < k' - 0 ->
         dict_get (0 + Z.of_nat j)
                  (p_values (snd (@_get_differencing_degree sm_once self)))
         = @test_p_values sm_once (differenced j (series_of 100)).
Proof.
  intro self.
  destruct (@p_values_record_each_differencing_step sm_once self 0
              eq_refl ltac:(lia) sm_once_tests_return)
    as (k' & Hd & _ & Hj & _).
  exists k'. split; assumption.
Defined.

Lemma find_warns_only_at_hard_stop_witness :
  let self :=
    set_d (fresh (series_of 100) default_alpha default_conditions false 1)
          (PyInt 0) in
  exists k',
    d (snd (@find sm_unit_root self)) = Some (PyInt k')
    /\ warnings (snd (@find sm_unit_root self))
       = warnings self
         ++ hard_stop_warning
              ((k' =? 2)
               && @needs_differencing sm_unit_root (alpha self)
                    (differenced (Z.to_nat (2 - 0)) (ts self))
               && negb (verbose self =? 0)).
Proof.
  intro self.
  exact (proj2 (@find_warns_only_at_hard_stop sm_unit_root self) 0
           eq_refl ltac:(lia) sm_unit_root_tests_return).
Defined.

(** ** The candidates a run of [find] fits *)

Section Candidates.

Context {sm : Statsmodels}.

Lemma for_in_app {A S : Type} (l1 l2 : list A) (body : A -> S -> M S)
    (acc : S) (s : HyndmanKhandakar) :
  for_in (l1 ++ l2) body acc s
  = bind (for_in l1 body acc) (for_in l2 body) s.
Proof.
  revert acc s. induction l1 as [|x l1 IH]; intros acc s.
  - reflexivity.
  - simpl. unfold bind.
    destruct (body x acc s) as [[acc'|e] s']; [|reflexivity].
    rewrite IH. reflexivity.
Qed.

Lemma for_in_ext {A S : Type} (l : list A) (body1 body2 : A -> S -> M S) :
  (forall x acc s, body1 x acc s = body2 x acc s) ->
  forall acc s, for_in l body1 acc s = for_in l body2 acc s.
Proof.
  intro Hext. induction l as [|x l IH]; intros acc s; [reflexivity|].
  simpl. unfold bind. rewrite Hext.
  destruct (body2 x acc s) as [[acc'|e] s']; [apply IH | reflexivity].
Qed.

Lemma for_in_flat_map {A B S : Type} (f : A -> list B) (l : list A)
    (body : B -> S -> M S) (acc : S) (s : HyndmanKhandakar) :
  for_in (flat_map f l) body acc s
  = for_in l (fun x acc' => for_in (f x) body acc') acc s.
Proof.
  revert acc s. induction l as [|x l IH]; intros acc s; [reflexivity|].
  simpl. rewrite for_in_app. unfold bind.
  destruct (for_in (f x) body acc s) as [[acc'|e] s']; [apply IH | reflexivity].
Qed.

Lemma for_in_map {A B S : Type} (g : A -> B) (l : list A)
    (body : B -> S -> M S) (acc : S) (s : HyndmanKhandakar) :
  for_in (map g l) body acc s = for_in l (fun x => body (g x)) acc s.
Proof.
  revert acc s. induction l as [|x l IH]; intros acc s; [reflexivity|].
  simpl. unfold bind.
  destruct (body (g x) acc s) as [[acc'|e] s']; [apply IH | reflexivity].
Qed.

(** The three nested loops are one loop over the candidates in the order
    the nesting reaches them. *)
Lemma grid_phase_flat (ps qs : list pyint) (d0 : pyint)
    (orders : list Candidate) (s : HyndmanKhandakar) :
  grid_phase ps qs d0 orders s
  = for_in (grid_candidates ps qs d0) grid_step orders s.
Proof.
  unfold grid_phase, grid_candidates. rewrite for_in_flat_map.
  apply for_in_ext. intros p acc1 s1.
  rewrite for_in_flat_map. apply for_in_ext. intros q acc2 s2.
  rewrite for_in_map. reflexivity.
Qed.

Lemma candidate_eqb_ckey (c1 c2 : Candidate) :
  candidate_eqb c1 c2 = true <-> ckey c1 = ckey c2.
Proof.
  destruct c1 as [[[p1 d1] q1] t1], c2 as [[[p2 d2] q2] t2].
  unfold candidate_eqb, order_eqb, int_eqb, ckey. cbn [fst snd].
  rewrite !andb_true_iff, !Z.eqb_eq, String.eqb_eq.
  split.
  - intros [[[H1 H2] H3] H4]. congruence.
  - intro H. inversion H. auto.
Qed.

Lemma candidate_in_ckey (c : Candidate) (l : list Candidate) :
  candidate_in c l = true <-> In (ckey c) (map ckey l).
Proof.
  unfold candidate_in. rewrite existsb_exists, in_map_iff. split.
  - intros (c' & Hin & Heq). exists c'. split; [|exact Hin].
    symmetry. now apply candidate_eqb_ckey.
  - intros (c' & Heq & Hin). exists c'. split; [exact Hin|].
    apply candidate_eqb_ckey. now symmetry.
Qed.

Lemma candidate_in_false_ckey (c : Candidate) (l : list Candidate) :
  candidate_in c l = false <-> ~ In (ckey c) (map ckey l).
Proof.
  rewrite <- candidate_in_ckey.
  destruct (candidate_in c l); split; intro H; congruence.
Qed.

Lemma grid_step_unfold (c : Candidate) (orders : list Candidate) :
  grid_step c orders =
  if candidate_in c orders then ret orders
  else try_except_ValueError
         (bind (_fit (fst c) (snd c)) (fun _ => ret (orders ++ [c])))
         (ret orders).
Proof. destruct c as [[[p d0] q] trend]. reflexivity. Qed.

(** The loop of the grid phase over candidates that are pairwise
    different fits those not in [orders] at its start, each once. *)
Lemma grid_loop_unvisited (cands : list Candidate) :
  NoDup (map ckey cands) ->
  forall (orders : list Candidate) (s : HyndmanKhandakar),
    bind (for_in cands grid_step orders) (fun _ => ret tt) s
    = seed_phase (unvisited orders cands) s.
Proof.
  induction cands as [|c rest IH]; intros Hnd orders s; [reflexivity|].
  simpl in Hnd. apply NoDup_cons_iff in Hnd. destruct Hnd as [Hnew Hnd].
  assert (Hsame : unvisited (orders ++ [c]) rest = unvisited orders rest).
  { unfold unvisited. apply filter_ext_in. intros c' Hin.
    f_equal. unfold candidate_in. rewrite existsb_app. simpl.
    rewrite orb_false_r.
    destruct (candidate_eqb c' c) eqn:E; [|now rewrite orb_false_r].
    exfalso. apply Hnew. apply candidate_eqb_ckey in E.
    rewrite <- E. now apply in_map. }
  unfold unvisited at 1. cbn [filter]. cbv beta.
  fold (unvisited orders rest).
  cbn [for_in]. unfold bind at 1 2. rewrite grid_step_unfold.
  destruct (candidate_in c orders) eqn:E; cbn [negb].
  - unfold ret at 1. exact (IH Hnd orders s).
  - rewrite seed_phase_cons.
    unfold try_except_ValueError, bind at 1. rewrite _fit_spec.
    destruct (ARIMA_fit (ts s) (fst c) (snd c) (verbose s)) as [m|e].
    + destruct (_correct_aic s (fst c) (snd c) (aic m)) as [a|e].
      * unfold ret at 1. rewrite <- Hsame.
        destruct c as [o trend]. exact (IH Hnd _ _).
      * destruct (is_ValueError e); [exact (IH Hnd orders s) | reflexivity].
    + destruct (is_ValueError e); [exact (IH Hnd orders s) | reflexivity].
Qed.

Lemma in_grid_candidates (c : Candidate) (ps qs : list pyint) (d0 : pyint) :
  In c (grid_candidates ps qs d0) <->
  exists p q trend,
    c = ((p, d0, q), trend) /\ In p ps /\ In q qs
    /\ (trend = "c"%string \/ trend = "nc"%string).
Proof.
  unfold grid_candidates. rewrite in_flat_map. split.
  - intros (p & Hp & Hc). apply in_flat_map in Hc.
    destruct Hc as (q & Hq & Hc). apply in_map_iff in Hc.
    destruct Hc as (trend & Hc & Ht). exists p, q, trend.
    repeat split; auto. simpl in Ht. intuition.
  - intros (p & q & trend & Hc & Hp & Hq & Ht). exists p.
    split; [exact Hp|]. apply in_flat_map. exists q. split; [exact Hq|].
    apply in_map_iff. exists trend. split; [now symmetry|].
    simpl. intuition.
Qed.

Lemma grid_candidates_NoDup (ps qs : list pyint) (d0 : pyint) :
  NoDup (map ival ps) -> NoDup (map ival qs) ->
  NoDup (map ckey (grid_candidates ps qs d0)).
Proof.
  intros Hps Hqs.
  assert (Hrow : forall p,
             NoDup (map ckey (grid_candidates [p] qs d0))).
  { intro p. unfold grid_candidates. simpl. rewrite app_nil_r.
    induction qs as [|q qs IH]; [constructor|].
    simpl in Hqs. apply NoDup_cons_iff in Hqs. destruct Hqs as [Hq Hqs].
    simpl. constructor; [|constructor; [|exact (IH Hqs)]].
    - intros [H|H]; [inversion H|].
      apply in_map_iff in H. destruct H as (c & Hk & Hc).
      apply in_flat_map in Hc. destruct Hc as (q' & Hq' & Hc).
      apply Hq. apply in_map_iff. exists q'. split; [|exact Hq'].
      simpl in Hc. destruct Hc as [Hc|[Hc|[]]]; subst c; simpl in Hk;
        congruence.
    - intro H. apply in_map_iff in H. destruct H as (c & Hk & Hc).
      apply in_flat_map in Hc. destruct Hc as (q' & Hq' & Hc).
      apply Hq. apply in_map_iff. exists q'. split; [|exact Hq'].
      simpl in Hc. destruct Hc as [Hc|[Hc|[]]]; subst c; simpl in Hk;
        congruence. }
  induction ps as [|p ps IH]; [constructor|].
  simpl in Hps. apply NoDup_cons_iff in Hps. destruct Hps as [Hp Hps].
  change (grid_candidates (p :: ps) qs d0)
    with (flat_map (fun q => map (fun trend => ((p, d0, q), trend))
                                 ["c"; "nc"]%string) qs
          ++ grid_candidates ps qs d0).
  rewrite map_app. apply NoDup_app.
  - specialize (Hrow p). unfold grid_candidates in Hrow. simpl in Hrow.
    now rewrite app_nil_r in Hrow.
  - exact (IH Hps).
  - intros k Hk1 Hk2.
    apply in_map_iff in Hk1. destruct Hk1 as (c1 & Hc1 & Hin1).
    apply in_map_iff in Hk2. destruct Hk2 as (c2 & Hc2 & Hin2).
    apply in_flat_map in Hin1. destruct Hin1 as (q1 & _ & Hin1).
    apply in_grid_candidates in Hin2.
    destruct Hin2 as (p2 & q2 & t2 & -> & Hp2 & _ & _).
    apply Hp. apply in_map_iff. exists p2. split; [|exact Hp2].
    simpl in Hin1. destruct Hin1 as [H|[H|[]]]; subst c1 k; simpl in Hc2;
      congruence.
Qed.

Lemma np_arange_NoDup (start stop : pyint) :
  NoDup (map ival (np_arange start stop)).
Proof.
  unfold np_arange. rewrite map_map. cbn [ival].
  generalize (Z.to_nat (ival stop - ival start)) as n.
  generalize 0%nat as i0. intros i0 n. revert i0.
  induction n as [|n IH]; intro i0; [constructor|].
  simpl. constructor; [|apply IH].
  intro H. apply in_map_iff in H. destruct H as (i & Hi & Hin).
  apply in_seq in Hin. lia.
Qed.

Lemma filter_map_NoDup {A B : Type} (g : A -> B) (f : A -> bool)
    (l : list A) :
  NoDup (map g l) -> NoDup (map g (filter f l)).
Proof.
  induction l as [|x l IH]; intro H; [constructor|].
  simpl in H. apply NoDup_cons_iff in H. destruct H as [Hx Hl].
  simpl. destruct (f x); [|exact (IH Hl)].
  simpl. constructor; [|exact (IH Hl)].
  intro Hin. apply Hx. apply in_map_iff in Hin.
  destruct Hin as (y & Hy & Hin). apply filter_In in Hin.
  apply in_map_iff. exists y. tauto.
Qed.

Lemma p_candidates_NoDup (s : HyndmanKhandakar) :
  NoDup (map ival (p_candidates s)).
Proof. apply filter_map_NoDup, np_arange_NoDup. Qed.

Lemma q_candidates_NoDup (s : HyndmanKhandakar) :
  NoDup (map ival (q_candidates s)).
Proof. apply filter_map_NoDup, np_arange_NoDup. Qed.

Lemma seed_orders_NoDup (d0 : pyint) : NoDup (map ckey (seed_orders d0)).
Proof.
  unfold seed_orders. destruct (int_leb d0 (PyInt 1)); simpl;
    repeat constructor; simpl; intuition congruence.
Qed.

Lemma unvisited_nil (cands : list Candidate) : unvisited [] cands = cands.
Proof.
  unfold unvisited. apply filter_all. intros c _. reflexivity.
Qed.

(** The candidates [find] works through after the differencing phase:
    the whole grid in the exhaustive mode; in the stepwise mode the seeds,
    then the neighbourhood grid of the incumbent the seeds leave, less the
    seeds. *)
Lemma find_candidates (self s1 : HyndmanKhandakar) :
  _get_differencing_degree self = (Ok tt, s1) ->
  find self =
  seed_phase
    (if full_search s1 then
       let stop := int_add (PyInt (fst (conditions s1))) (PyInt 1) in
       grid_candidates (np_arange (PyInt 0) stop) (np_arange (PyInt 0) stop)
                       (key_d (order s1))
     else
       let seeds := seed_orders (key_d (order s1)) in
       let s2 := snd (seed_phase seeds s1) in
       seeds ++ unvisited seeds
                  (grid_candidates (p_candidates s2) (q_candidates s2)
                                   (key_d (order s1))))
    s1.
Proof.
  intro Hdiff. unfold find. unfold bind at 1. rewrite Hdiff.
  unfold bind at 1. unfold get at 1.
  set (d0 := key_d (order s1)).
  destruct (full_search s1).
  - unfold bind at 1. unfold ret at 1. cbv zeta.
    set (stop := int_add (PyInt (fst (conditions s1))) (PyInt 1)).
    pose proof (grid_loop_unvisited
                  (grid_candidates (np_arange (PyInt 0) stop)
                                   (np_arange (PyInt 0) stop) d0)
                  (grid_candidates_NoDup _ _ d0
                     (np_arange_NoDup _ _) (np_arange_NoDup _ _)) [] s1)
      as H.
    rewrite unvisited_nil in H. rewrite <- H.
    unfold bind. rewrite grid_phase_flat. reflexivity.
  - cbv zeta. unfold bind at 1. unfold bind at 1.
    rewrite seed_phase_app.
    destruct (seed_phase (seed_orders d0) s1) as [[[]|e] s2] eqn:Eseed;
      [|reflexivity].
    unfold bind at 1. unfold get at 1. unfold ret at 1. cbn [snd].
    rewrite <- (grid_loop_unvisited _
                  (grid_candidates_NoDup _ _ d0
                     (p_candidates_NoDup s2) (q_candidates_NoDup s2))).
    unfold bind. rewrite grid_phase_flat. reflexivity.
Qed.

End Candidates.

Section SearchCoverage.

Context {sm : Statsmodels}.


Lemma in_np_arange (x start stop : pyint) :
  In x (np_arange start stop) <->
  exists z, x = NpInt z /\ ival start <= z < ival stop.
Proof.
  unfold np_arange. rewrite in_map_iff. split.
  - intros (i & Hx & Hi). apply in_seq in Hi.
    exists (ival start + Z.of_nat i). split; [now symmetry | lia].
  - intros (z & Hx & Hz). exists (Z.to_nat (z - ival start)). split.
    + subst x. f_equal. lia.
    + apply in_seq. lia.
Qed.

Lemma differencing_returns_frame (self s1 : HyndmanKhandakar) :
  _get_differencing_degree self = (Ok tt, s1) ->
  full_search s1 = full_search self /\ conditions s1 = conditions self
  /\ order s1 = order self.
Proof.
  intro Hdiff.
  pose proof (_get_differencing_degree_frame self) as G.
  rewrite Hdiff in G. simpl in G. intuition.
Qed.


(** The stepwise mode makes one pass.  Once the differencing phase has
    returned, [find] fits the seeds and then the neighbourhood grid of the
    incumbent the seed phase leaves - built once, not built anew when a
    neighbour becomes the incumbent - less the candidates that are
    seeds. *)
Theorem find_stepwise_is_single_pass (self s1 : HyndmanKhandakar) :
  full_search self = false ->
  _get_differencing_degree self = (Ok tt, s1) ->
  let seeds := seed_orders (key_d (order self)) in
  let s2 := snd (seed_phase seeds s1) in
  let grid := grid_candidates (p_candidates s2) (q_candidates s2)
                              (key_d (order self)) in
  find self = seed_phase (seeds ++ unvisited seeds grid) s1
  /\ (forall c, In c (unvisited seeds grid) ->
                In c grid /\ candidate_in c seeds = false).
Proof.
  intros Hstep Hdiff seeds s2 grid.
  destruct (differencing_returns_frame self s1 Hdiff) as (Ff & Fc & Fo).
  pose proof (find_candidates self s1 Hdiff) as Hfind.
  rewrite Ff, Hstep, Fo in Hfind. cbv zeta in Hfind.
  split; [exact Hfind|].
  intros c Hc. unfold unvisited in Hc. apply filter_In in Hc.
  destruct Hc as [Hin Hnot]. split; [exact Hin|].
  now apply negb_true_iff.
Qed.

(** What the grid loops add to the list of visited candidates. *)
Lemma grid_loop_visited (cands : list Candidate) :
  forall (orders orders' : list Candidate) (s s' : HyndmanKhandakar),
    for_in cands grid_step orders s = (Ok orders', s') ->
    NoDup (map ckey orders) ->
    NoDup (map ckey orders')
    /\ exists added,
         orders' = orders ++ added
         /\ forall c, In c added ->
                      In c cands /\ candidate_in c orders = false
                      /\ exists m,
                           ARIMA_fit (ts s) (fst c) (snd c) (verbose s)
                           = Ok m.
Proof.
  induction cands as [|c rest IH]; intros orders orders' s s' Hrun Hnd.
  - inversion Hrun; subst. split; [exact Hnd|].
    exists []. split; [now rewrite app_nil_r | intros c []].
  - cbn [for_in] in Hrun. unfold bind in Hrun.
    rewrite grid_step_unfold in Hrun.
    assert (Hskip : for_in rest grid_step orders s = (Ok orders', s') ->
                    NoDup (map ckey orders')
                    /\ exists added,
                         orders' = orders ++ added
                         /\ forall c0, In c0 added ->
                              In c0 (c :: rest)
                              /\ candidate_in c0 orders = false
                              /\ exists m,
                                   ARIMA_fit (ts s) (fst c0) (snd c0)
                                             (verbose s) = Ok m).
    { intro Hrest. destruct (IH _ _ _ _ Hrest Hnd) as (H1 & added & H2 & H3).
      split; [exact H1|]. exists added. split; [exact H2|].
      intros c0 Hc0. destruct (H3 c0 Hc0) as (Ha & Hb & Hc).
      split; [now right | split; assumption]. }
    destruct (candidate_in c orders) eqn:E.
    + apply Hskip. exact Hrun.
    + unfold try_except_ValueError, bind in Hrun. rewrite _fit_spec in Hrun.
      destruct (ARIMA_fit (ts s) (fst c) (snd c) (verbose s)) as [m|e] eqn:Ef.
      * destruct (_correct_aic s (fst c) (snd c) (aic m)) as [a|e].
        -- unfold ret at 1 in Hrun.
           pose proof (after_evaluation_frame s (fst c, snd c) m a) as F.
           cbv zeta in F. destruct F as (Fts & _ & Fv & _).
           assert (Hnd1 : NoDup (map ckey (orders ++ [c]))).
           { rewrite map_app. apply NoDup_app; [exact Hnd | |].
             - simpl. constructor; [intros [] | constructor].
             - intros k Hk [Hk'|[]]. subst k.
               apply candidate_in_false_ckey in E. exact (E Hk). }
           destruct (IH _ _ _ _ Hrun Hnd1) as (H1 & added & H2 & H3).
           split; [exact H1|]. exists (c :: added).
           split; [now rewrite H2, <- app_assoc|].
           intros c0 [Hc0|Hc0].
           ++ subst c0. split; [now left|]. split; [exact E|].
              now exists m.
           ++ destruct (H3 c0 Hc0) as (Ha & Hb & (m0 & Hm0)).
              split; [now right|]. split.
              ** unfold candidate_in in Hb |- *. rewrite existsb_app in Hb.
                 apply orb_false_iff in Hb. exact (proj1 Hb).
              ** exists m0. rewrite <- Fts, <- Fv. exact Hm0.
        -- destruct (is_ValueError e); [apply Hskip; exact Hrun|].
           discriminate Hrun.
      * destruct (is_ValueError e); [apply Hskip; exact Hrun|].
        discriminate Hrun.
Qed.

(** The list of visited candidates holds no duplicate.  The local list
    [orders] of [find] starts as the seed list or empty, both without
    duplicates; when the three loops have run through, it is the list
    they started with, with no duplicate, extended by candidates of the
    grid only: each was not yet in the list and its fit did not raise.  A
    candidate whose fit raised [ValueError] is not added. *)
Theorem visited_list_has_no_duplicates (ps qs : list pyint) (d0 : pyint)
    (orders orders' : list Candidate) (s s' : HyndmanKhandakar) :
  NoDup (map ckey (seed_orders d0))
  /\
  (NoDup (map ckey orders) ->
   grid_phase ps qs d0 orders s = (Ok orders', s') ->
   NoDup (map ckey orders')
   /\ exists added,
        orders' = orders ++ added
        /\ forall c, In c added ->
                     In c (grid_candidates ps qs d0)
                     /\ candidate_in c orders = false
                     /\ exists m,
                          ARIMA_fit (ts s) (fst c) (snd c) (verbose s)
                          = Ok m).
Proof.
  split; [apply seed_orders_NoDup|].
  intros Hnd Hrun. rewrite grid_phase_flat in Hrun.
  exact (grid_loop_visited _ _ _ _ _ Hrun Hnd).
Qed.

End SearchCoverage.


Lemma find_stepwise_is_single_pass_witness :
  let self := fresh (series_of 100) default_alpha default_conditions false 0 in
  let seeds := seed_orders (PyInt 0) in
  let s2 := snd (@seed_phase sm_stationary seeds self) in
  @find sm_stationary self
  = @seed_phase sm_stationary
      (seeds ++ unvisited seeds
                  (grid_candidates (p_candidates s2) (q_candidates s2)
                                   (PyInt 0))) self.
Proof.
  intros self seeds s2.
  exact (proj1 (@find_stepwise_is_single_pass sm_stationary self self
                  eq_refl eq_refl)).
Defined.

Lemma visited_list_has_no_duplicates_witness :
  let self := fresh (series_of 100) default_alpha default_conditions false 0 in
  let seeds := seed_orders (PyInt 0) in
  let s2 := snd (@seed_phase sm_stationary seeds self) in
  match fst (@grid_phase sm_stationary (p_candidates s2) (q_candidates s2)
               (PyInt 0) seeds s2) with
  | Ok orders' => NoDup (map ckey orders')
  | Raise _ => True
  end.
Proof.
  intros self seeds s2.
  destruct (@grid_phase sm_stationary (p_candidates s2) (q_candidates s2)
              (PyInt 0) seeds s2) as [[orders'|e] s'] eqn:E; [|exact I].
  exact (proj1 (proj2 (@visited_list_has_no_duplicates sm_stationary
                         (p_candidates s2) (q_candidates s2) (PyInt 0)
                         seeds orders' s2 s')
                  (seed_orders_NoDup (PyInt 0)) E)).
Defined.

Section StepwiseReach.

Context {sm : Statsmodels}.

Lemma p_candidates_near (s : HyndmanKhandakar) (b : Z) (x : pyint) :
  key_p (order s) = PyInt b -> In x (p_candidates s) ->
  b - 1 <= ival x <= b + 1.
Proof.
  intros Hb Hin. unfold p_candidates in Hin. apply filter_In in Hin.
  destruct Hin as [Hin _]. apply in_np_arange in Hin.
  destruct Hin as (z & -> & Hz). rewrite Hb in Hz.
  cbn [int_sub int_add int_op ival] in *. lia.
Qed.

Lemma q_candidates_near (s : HyndmanKhandakar) (b : Z) (x : pyint) :
  key_q (order s) = PyInt b -> In x (q_candidates s) ->
  b - 1 <= ival x <= b + 1.
Proof.
  intros Hb Hin. unfold q_candidates in Hin. apply filter_In in Hin.
  destruct Hin as [Hin _]. apply in_np_arange in Hin.
  destruct Hin as (z & -> & Hz). rewrite Hb in Hz.
  cbn [int_sub int_add int_op ival] in *. lia.
Qed.

Lemma seed_orders_small (d0 : pyint) (c : Candidate) :
  In c (seed_orders d0) ->
  exists bp bq,
    fst (fst (fst c)) = PyInt bp /\ snd (fst c) = PyInt bq
    /\ 0 <= bp <= 2 /\ 0 <= bq <= 2.
Proof.
  unfold seed_orders. destruct (int_leb d0 (PyInt 1)); simpl;
    intuition (subst c; simpl; do 2 eexists; repeat split; lia).
Qed.

(** The stepwise mode on an object as constructed never looks beyond
    order 3, whatever [max_order] is: the seeds have [p] and [q] in 0..2,
    the single pass adds their neighbours, so every candidate [find] fits
    has [p] and [q] between -1 and 3, and so has the order [find]
    ends with. *)
Theorem stepwise_search_stays_within_three
    (ts0 : Series) (alpha0 : pyfloat) (conditions0 : Z * pyfloat)
    (verbose0 : Z) (self : HyndmanKhandakar) :
  __init__ ts0 alpha0 conditions0 false verbose0 = Ok self ->
  exists cs,
    snd (find self) = snd (seed_phase cs self)
    /\ Forall (fun c => -1 <= ival (fst (fst (fst c))) <= 3
                        /\ -1 <= ival (snd (fst c)) <= 3) cs
    /\ -1 <= ival (key_p (order (snd (find self)))) <= 3
    /\ -1 <= ival (key_q (order (snd (find self)))) <= 3.
Proof.
  intro Hinit. apply __init___fresh in Hinit.
  assert (Hd : d self = None) by (subst self; reflexivity).
  assert (Hp0 : key_p (order self) = PyInt 0) by (subst self; reflexivity).
  assert (Hq0 : key_q (order self) = PyInt 0) by (subst self; reflexivity).
  assert (Hfs : full_search self = false) by (subst self; reflexivity).
  assert (Hfinal : forall cs,
             Forall (fun c => -1 <= ival (fst (fst (fst c))) <= 3
                              /\ -1 <= ival (snd (fst c)) <= 3) cs ->
             -1 <= ival (key_p (order (snd (seed_phase cs self)))) <= 3
             /\ -1 <= ival (key_q (order (snd (seed_phase cs self)))) <= 3).
  { intros cs Hall.
    apply (seed_phase_invariant
             (fun s => -1 <= ival (key_p (order s)) <= 3
                       /\ -1 <= ival (key_q (order s)) <= 3)).
    - intros s c m a Hin _ _ _ _ _.
      pose proof (set_incumbent_fields s m (fst c) (snd c) a) as F.
      simpl in F.
      destruct F as (_ & _ & _ & _ & _ & _ & _ & _ & _ & _ & F11).
      rewrite F11. simpl. rewrite Forall_forall in Hall. exact (Hall c Hin).
    - rewrite Hp0, Hq0. simpl. lia. }
  pose proof (_get_differencing_degree_without_d_state self Hd) as Hs1.
  pose proof (find_runs_fits self) as Hraise.
  destruct (_get_differencing_degree self) as [[[]|e] s1] eqn:Hdiff;
    cbn [snd] in Hs1; subst s1.
  - clear Hraise. pose proof (find_candidates self self Hdiff) as Hfind.
    rewrite Hfs in Hfind. cbv zeta in Hfind.
    set (seeds := seed_orders (key_d (order self))) in *.
    set (s2 := snd (seed_phase seeds self)) in *.
    assert (Hs2 : (exists b, key_p (order s2) = PyInt b /\ 0 <= b <= 2)
                  /\ (exists b, key_q (order s2) = PyInt b /\ 0 <= b <= 2)).
    { apply (seed_phase_invariant
               (fun s => (exists b, key_p (order s) = PyInt b /\ 0 <= b <= 2)
                         /\ (exists b, key_q (order s) = PyInt b
                                       /\ 0 <= b <= 2))).
      - intros s c m a Hin _ _ _ _ _.
        pose proof (set_incumbent_fields s m (fst c) (snd c) a) as F.
        simpl in F.
        destruct F as (_ & _ & _ & _ & _ & _ & _ & _ & _ & _ & F11).
        rewrite F11. simpl.
        destruct (seed_orders_small _ c Hin) as (bp & bq & Hbp & Hbq & H1 & H2).
        split; eexists; split; eauto.
      - split; [exists 0 | exists 0]; split; auto; lia. }
    destruct Hs2 as ((bp & Hbp & Hbp') & (bq & Hbq & Hbq')).
    assert (Hall : Forall
                     (fun c => -1 <= ival (fst (fst (fst c))) <= 3
                               /\ -1 <= ival (snd (fst c)) <= 3)
                     (seeds ++ unvisited seeds
                                 (grid_candidates (p_candidates s2)
                                    (q_candidates s2) (key_d (order self))))).
    { apply Forall_app. split; apply Forall_forall; intros c Hc; cbv beta.
      - destruct (seed_orders_small _ c Hc) as (xp & xq & Hxp & Hxq & H1 & H2).
        destruct c as [[[p d'] q] trend]. cbn [fst snd] in *.
        rewrite Hxp, Hxq. simpl. lia.
      - unfold unvisited in Hc. apply filter_In in Hc. destruct Hc as [Hc _].
        apply in_grid_candidates in Hc.
        destruct Hc as (p & q & trend & -> & Hp & Hq & _). cbn [fst snd].
        pose proof (p_candidates_near s2 bp p Hbp Hp).
        pose proof (q_candidates_near s2 bq q Hbq Hq). lia. }
    eexists. split; [rewrite Hfind; reflexivity|].
    split; [exact Hall|]. rewrite Hfind. exact (Hfinal _ Hall).
  - exists []. rewrite Hraise. cbn [snd seed_phase for_in ret].
    split; [reflexivity|]. split; [constructor|].
    rewrite Hp0, Hq0. simpl. lia.
Qed.

(** The exhaustive mode on an object as constructed finds the best of the
    grid.  When the differencing phase returns, the AICc [find] ends with
    is the minimum of the AICc values of the grid candidates that were
    evaluated and passed the root checks, and the object is still the
    sentinel when there are none. *)
Theorem exhaustive_search_finds_grid_minimum
    (ts0 : Series) (alpha0 : pyfloat) (conditions0 : Z * pyfloat)
    (verbose0 : Z) (self : HyndmanKhandakar) :
  __init__ ts0 alpha0 conditions0 true verbose0 = Ok self ->
  fst (_get_differencing_degree self) = Ok tt ->
  let range := np_arange (PyInt 0) (PyInt (fst conditions0 + 1)) in
  let grid := grid_candidates range range (PyInt 0) in
  (checked_aiccs self grid = [] -> is_sentinel (snd (find self)))
  /\ (checked_aiccs self grid <> [] ->
      is_minimum (aicc (snd (find self))) (checked_aiccs self grid)).
Proof.
  intros Hinit Hret range grid. apply __init___fresh in Hinit.
  assert (Hd : d self = None) by (subst self; reflexivity).
  assert (Hsent : is_sentinel self) by (subst self; repeat split).
  assert (Hnum : is_nan (aicc self) = false) by (subst self; reflexivity).
  pose proof (_get_differencing_degree_without_d_state self Hd) as Hs1.
  destruct (_get_differencing_degree self) as [[[]|e] s1] eqn:Hdiff;
    [|discriminate Hret].
  cbn [snd] in Hs1. subst s1.
  pose proof (find_candidates self self Hdiff) as Hfind.
  assert (Hgrid : (if full_search self then
                     let stop :=
                       int_add (PyInt (fst (conditions self))) (PyInt 1) in
                     grid_candidates (np_arange (PyInt 0) stop)
                       (np_arange (PyInt 0) stop) (key_d (order self))
                   else
                     let seeds := seed_orders (key_d (order self)) in
                     let s2 := snd (seed_phase seeds self) in
                     seeds ++ unvisited seeds
                       (grid_candidates (p_candidates s2) (q_candidates s2)
                          (key_d (order self)))) = grid)
    by (subst self; reflexivity).
  rewrite Hgrid in Hfind. rewrite Hfind.
  pose proof (minimum_invariant grid self [] Hnum
                ltac:(intros y []) (or_introl (conj eq_refl Hsent))) as H.
  cbv zeta in H. rewrite app_nil_l in H.
  destruct H as (Hlow & Hin).
  split.
  - intro Hnil. rewrite Hnil in Hin. destruct Hin as [[_ Hs]|[]]. exact Hs.
  - intro Hne. split; [|exact Hlow].
    destruct Hin as [[Hnil _]|Hin]; [contradiction | exact Hin].
Qed.

End StepwiseReach.

Lemma stepwise_search_stays_within_three_witness :
  let self := fresh (series_of 100) default_alpha default_conditions false 0 in
  -1 <= ival (key_p (order (snd (@find sm_stationary self)))) <= 3.
Proof.
  intro self.
  destruct (@stepwise_search_stays_within_three sm_stationary (series_of 100)
              default_alpha default_conditions 0 self eq_refl)
    as (cs & _ & _ & Hp & _).
  exact Hp.
Defined.

Lemma exhaustive_search_finds_grid_minimum_witness :
  let self := fresh (series_of 100) default_alpha default_conditions true 0 in
  let range := np_arange (PyInt 0) (PyInt 6) in
  let grid := grid_candidates range range (PyInt 0) in
  is_minimum (aicc (snd (@find sm_stationary self)))
             (@checked_aiccs sm_stationary self grid).
Proof.
  intros self range grid.
  refine (proj2 (@exhaustive_search_finds_grid_minimum sm_stationary
                   (series_of 100) default_alpha default_conditions 0 self
                   eq_refl eq_refl) _).
  vm_compute. discriminate.
Defined.

(** ** More on the correction and on differencing *)

Section CorrectionOrder.

Lemma Qdiv_le_compat (a1 a2 b1 b2 : Z) :
  0 <= a1 <= a2 -> 0 < b2 <= b1 ->
  (inject_Z a1 / inject_Z b1 <= inject_Z a2 / inject_Z b2)%Q.
Proof.
  intros Ha Hb.
  assert (Hb1 : (0 < inject_Z b1)%Q) by (apply inject_Z_pos; lia).
  assert (Hb2 : (0 < inject_Z b2)%Q) by (apply inject_Z_pos; lia).
  apply Qle_shift_div_r; [exact Hb1|].
  setoid_replace (inject_Z a2 / inject_Z b2 * inject_Z b1)%Q
    with ((inject_Z a2 * inject_Z b1) / inject_Z b2)%Q
    by (field; intro Hz; rewrite Hz in Hb2; exact (Qlt_irrefl 0 Hb2)).
  apply Qle_shift_div_l; [exact Hb2|].
  rewrite <- !inject_Z_mult. rewrite <- Zle_Qle. nia.
Qed.

(** With the same raw AIC, more parameters never give a smaller AICc: for
    two orders with parameter counts [-1 <= m1 <= m2 < n - 1], the AICc of
    the second is at least the AICc of the first.  In particular the
    variant of an order with a constant never gets a smaller AICc than the
    variant without. *)
Theorem aicc_penalty_grows_with_parameters (self : HyndmanKhandakar)
    (p1 d1 q1 p2 d2 q2 : pyint) (trend1 trend2 : string) (raw_aic : Q) :
  let n := series_length self in
  let m1 := n_params p1 q1 trend1 in
  let m2 := n_params p2 q2 trend2 in
  exact_ints p1 q1 n -> exact_ints p2 q2 n ->
  -1 <= m1 <= m2 -> m2 < n - 1 ->
  exists v1 v2,
    _correct_aic self (p1, d1, q1) trend1 (Fin raw_aic) = Ok (Fin v1)
    /\ _correct_aic self (p2, d2, q2) trend2 (Fin raw_aic) = Ok (Fin v2)
    /\ (v1 <= v2)%Q.
Proof.
  intros n m1 m2 Hex1 Hex2 Hm Hn.
  rewrite (_correct_aic_division self p1 d1 q1 trend1 (Fin raw_aic) Hex1).
  rewrite (_correct_aic_division self p2 d2 q2 trend2 (Fin raw_aic) Hex2).
  fold n m1 m2.
  rewrite !int_truediv_nonzero by lia.
  do 2 eexists. split; [reflexivity|]. split; [reflexivity|].
  apply Qplus_le_r. apply Qdiv_le_compat; [|lia].
  split; [nia|].
  destruct (Z.eq_dec m1 m2) as [E|E]; [rewrite E; lia|].
  assert (0 <= (m2 - m1) * (m2 + m1 + 1)) by (apply Z.mul_nonneg_nonneg; lia).
  nia.
Qed.

(** The AICc of a candidate depends on the values of [p] and [q] and on
    the trend only: not on the degree [d], and, as long as
    [n - m - 1 <> 0], not on whether the integers are Python ints (the
    seeds) or numpy integers (the grid). *)
Theorem correct_aic_ignores_degree_and_int_kind (self : HyndmanKhandakar)
    (p1 d1 q1 p2 d2 q2 : pyint) (trend : string) (aic0 : pyfloat) :
  let n := series_length self in
  exact_ints p1 q1 n -> exact_ints p2 q2 n ->
  ival p1 = ival p2 -> ival q1 = ival q2 ->
  n - n_params p1 q1 trend - 1 <> 0 ->
  _correct_aic self (p1, d1, q1) trend aic0
  = _correct_aic self (p2, d2, q2) trend aic0.
Proof.
  intros n Hex1 Hex2 Hp Hq Hden.
  rewrite (_correct_aic_division self p1 d1 q1 trend aic0 Hex1).
  rewrite (_correct_aic_division self p2 d2 q2 trend aic0 Hex2).
  assert (Hm : n_params p2 q2 trend = n_params p1 q1 trend)
    by (unfold n_params; now rewrite Hp, Hq).
  rewrite Hm. fold n.
  rewrite !int_truediv_nonzero by exact Hden. reflexivity.
Qed.

Lemma diff_dropna_length (ts0 : Series) :
  List.length (diff_dropna ts0) = pred (List.length ts0).
Proof.
  induction ts0 as [|x rest IH]; [reflexivity|].
  destruct rest as [|y rest]; [reflexivity|].
  cbn [diff_dropna List.length] in *. now rewrite IH.
Qed.

(** Each differencing costs one observation: the series differenced [k]
    times has [n - k] observations, and none at all when [k >= n]; the
    empty series and the series of one observation difference to the
    empty series. *)
Theorem differenced_length (k : nat) (ts0 : Series) :
  List.length (differenced k ts0) = (List.length ts0 - k)%nat
  /\ diff_dropna [] = []
  /\ (forall x, diff_dropna [x] = []).
Proof.
  split; [|split; reflexivity].
  revert ts0. induction k as [|k IH]; intro ts0.
  - simpl. lia.
  - cbn [differenced]. rewrite IH, diff_dropna_length. lia.
Qed.

End CorrectionOrder.

Lemma aicc_penalty_grows_with_parameters_witness :
  let self := fresh (series_of 100) default_alpha default_conditions false 0 in
  exists v1 v2,
    _correct_aic self (PyInt 2, PyInt 0, PyInt 1) "nc" (Fin 280) = Ok (Fin v1)
    /\ _correct_aic self (PyInt 2, PyInt 0, PyInt 1) "c" (Fin 280) = Ok (Fin v2)
    /\ (v1 <= v2)%Q.
Proof.
  intro self.
  refine (aicc_penalty_grows_with_parameters self
            (PyInt 2) (PyInt 0) (PyInt 1) (PyInt 2) (PyInt 0) (PyInt 1)
            "nc" "c" 280 _ _ _ _).
  - left. exists 2, 1. split; reflexivity.
  - left. exists 2, 1. split; reflexivity.
  - vm_compute. split; discriminate.
  - vm_compute. reflexivity.
Defined.

Lemma correct_aic_ignores_degree_and_int_kind_witness :
  let self := fresh (series_of 100) default_alpha default_conditions false 0 in
  _correct_aic self (PyInt 2, PyInt 0, PyInt 1) "c" (Fin 280)
  = _correct_aic self (NpInt 2, PyInt 1, NpInt 1) "c" (Fin 280).
Proof.
  intro self.
  refine (correct_aic_ignores_degree_and_int_kind self
            (PyInt 2) (PyInt 0) (PyInt 1) (NpInt 2) (PyInt 1) (NpInt 1)
            "c" (Fin 280) _ _ eq_refl eq_refl _).
  - left. exists 2, 1. split; reflexivity.
  - right. vm_compute. repeat split; discriminate.
  - vm_compute. discriminate.
Defined.
